(** * bsky-autopost: the Bangla-date poster and its publishing pipeline

    A shallow embedding of [scripts/bangla-dates/utils.js] and of the
    posting half of [scripts/bangla-dates/index.js], together with the
    pipeline components that the design document describes and that the
    JavaScript sources do not contain.

    Strings are sequences of UTF-8 bytes, as the source files store them.
    The repository copy of [index.js] holds its non-ASCII literals as the
    MacRoman reading of UTF-8 text, one character for each original byte;
    they are written here as that copy stores them.  [utils.js] is stored
    as UTF-8 and its tables are taken over unchanged. *)

From stdpp Require Import gmap strings list fin_maps.
From Stdlib Require Import ZArith Ascii String.
From Stdlib.Strings Require Import Byte.

Open Scope string_scope.
Open Scope nat_scope.
Open Scope list_scope.

(** ** JavaScript values and the few primitives the scripts rely on *)

Module JS.

(** The values that can come out of a property read in these scripts:
    a string, [undefined], or something inherited from
    [Object.prototype] (a built-in function, or the prototype object). *)
Inductive value :=
| VUndefined
| VString (s : string)
| VFunction (name : string)
| VObject (name : string).

(** ToBoolean: [undefined] and the empty string are falsy. *)
Definition truthy (v : value) : bool :=
  match v with
  | VUndefined => false
  | VString s => negb (String.eqb s "")
  | VFunction _ => true
  | VObject _ => true
  end.

(** [a || b] *)
Definition or_else (a b : value) : value :=
  if truthy a then a else b.

(** ToString, as a template literal applies it. *)
Definition to_string (v : value) : string :=
  match v with
  | VUndefined => "undefined"
  | VString s => s
  | VFunction name => "function " +:+ name +:+ "() { [native code] }"
  | VObject _ => "[object Object]"
  end.

(** The properties every object literal inherits from [Object.prototype]
    in Node.js. *)
Definition Object_prototype : gmap string value :=
  list_to_map [
    ("constructor", VFunction "Object");
    ("__defineGetter__", VFunction "__defineGetter__");
    ("__defineSetter__", VFunction "__defineSetter__");
    ("hasOwnProperty", VFunction "hasOwnProperty");
    ("__lookupGetter__", VFunction "__lookupGetter__");
    ("__lookupSetter__", VFunction "__lookupSetter__");
    ("isPrototypeOf", VFunction "isPrototypeOf");
    ("propertyIsEnumerable", VFunction "propertyIsEnumerable");
    ("toString", VFunction "toString");
    ("valueOf", VFunction "valueOf");
    ("__proto__", VObject "Object.prototype");
    ("toLocaleString", VFunction "toLocaleString")
  ].

(** [obj[key]] on an object literal whose own properties are [own]:
    own properties first, then the prototype. *)
Definition get (own : gmap string string) (key : string) : value :=
  match own !! key with
  | Some s => VString s
  | None =>
      match Object_prototype !! key with
      | Some v => v
      | None => VUndefined
      end
  end.

(** UTF-16 code units contributed by one UTF-8 byte: a continuation byte
    adds nothing, the lead byte of a four-byte sequence stands for a
    surrogate pair. *)
Definition utf16_units (c : ascii) : nat :=
  let n := nat_of_ascii c in
  if n <? 128 then 1
  else if n <? 192 then 0
  else if n <? 240 then 1
  else 2.

(** [s.length] *)
Fixpoint length (s : string) : nat :=
  match s with
  | EmptyString => 0
  | String c s' => utf16_units c + length s'
  end.

(** Code points contributed by one UTF-8 byte. *)
Definition code_points (c : ascii) : nat :=
  let n := nat_of_ascii c in
  if n <? 128 then 1 else if n <? 192 then 0 else 1.

(** The number of characters (code points) of [s]. *)
Fixpoint char_count (s : string) : nat :=
  match s with
  | EmptyString => 0
  | String c s' => code_points c + char_count s'
  end.

(** ASCII lower-casing of one byte. *)
Definition lower_ascii (c : ascii) : ascii :=
  let n := nat_of_ascii c in
  if (65 <=? n) && (n <=? 90) then ascii_of_nat (n + 32) else c.

(** [s.toLowerCase()] on the ASCII range, which is all the comparison
    with ['true'] can observe. *)
Fixpoint toLowerCase (s : string) : string :=
  match s with
  | EmptyString => EmptyString
  | String c s' => String (lower_ascii c) (toLowerCase s')
  end.

End JS.

(** ** scripts/bangla-dates/utils.js *)

Module Utils.
Import JS.

Definition BANGLA_ORDINALS : gmap string string :=
  list_to_map [
    ("১", "১লা");
    ("২", "২রা");
    ("৩", "৩রা");
    ("৪", "৪ঠা");
    ("৫", "৫ই");
    ("৬", "৬ই");
    ("৭", "৭ই");
    ("৮", "৮ই");
    ("৯", "৯ই");
    ("১০", "১০ই");
    ("১১", "১১ই");
    ("১২", "১২ই");
    ("১৩", "১৩ই");
    ("১৪", "১৪ই");
    ("১৫", "১৫ই");
    ("১৬", "১৬ই");
    ("১৭", "১৭ই");
    ("১৮", "১৮ই");
    ("১৯", "১৯শে");
    ("২০", "২০শে");
    ("২১", "২১শে");
    ("২২", "২২শে");
    ("২৩", "২৩শে");
    ("২৪", "২৪শে");
    ("২৫", "২৫শে");
    ("২৬", "২৬শে");
    ("২৭", "২৭শে");
    ("২৮", "২৮শে");
    ("২৯", "২৯শে");
    ("৩০", "৩০শে");
    ("৩১", "৩১শে")
  ].

Definition BANGLA_SEASONS : gmap string string :=
  list_to_map [
    ("বৈশাখ", "গ্রীষ্ম");
    ("জ্যৈষ্ঠ", "গ্রীষ্ম");
    ("আষাঢ়", "বর্ষা");
    ("শ্রাবণ", "বর্ষা");
    ("ভাদ্র", "শরৎ");
    ("আশ্বিন", "শরৎ");
    ("কার্তিক", "হেমন্ত");
    ("অগ্রহায়ণ", "হেমন্ত");
    ("পৌষ", "শীত");
    ("মাঘ", "শীত");
    ("ফাল্গুন", "বসন্ত");
    ("চৈত্র", "বসন্ত")
  ].

(** [return BANGLA_ORDINALS[banglaDate] || banglaDate;] *)
Definition getBanglaOrdinal (banglaDate : string) : value :=
  or_else (get BANGLA_ORDINALS banglaDate) (VString banglaDate).

(** [return BANGLA_SEASONS[banglaMonth] || '';] *)
Definition getBanglaSeason (banglaMonth : string) : value :=
  or_else (get BANGLA_SEASONS banglaMonth) (VString "").

End Utils.

(** ** scripts/bangla-dates/index.js: the outside world *)

Module Index.
Import JS Utils.

(** A JavaScript [Error]. *)
Record Error := { message : string; stack : string }.

(** What a call into a library or the operating system does. *)
Inductive outcome (A : Type) :=
| Returned (a : A)
| Thrown (e : Error).
Arguments Returned {A} a.
Arguments Thrown {A} e.

(** A blob handle, as [uploadResponse.data.blob]. *)
Record BlobRef := { cid : string }.

(** A rich-text facet: a byte range of the text and its hashtag. *)
Record Facet := { byteStart : nat; byteEnd : nat; tag : string }.

Record EmbedImage := { alt : string; image : BlobRef }.

Record Embed := { type : string; images : list EmbedImage }.

Record PostRecord := {
  text : string;
  facets : list Facet;
  embed : Embed;
  createdAt : string
}.

(** What [getBanglaDateInfo] returns ([bdTime] is not used again). *)
Record BanglaDateInfo := {
  date : value;
  month : string;
  year : string;
  weekday : string;
  season : value;
  englishDate : string
}.

(** What the [bangla-calendar] package answers for today. *)
Record Calendar := {
  banglaDay : string;
  banglaMonth : string;
  banglaYear : string;
  banglaWeekday : string
}.

(** Everything outside the script: the environment, the clock, the file
    system, the canvas and the AT-protocol agent.  Every call is one that
    has settled: it returned or it threw.  A call that never settles (an
    awaited promise that stays pending) has no run here. *)
Record World := {
  env : gmap string string;
  calendar : Calendar;
  todayInEnglish : string;
  outputDir : string;
  existsSync : string -> bool;
  mkdirSync : string -> outcome unit;
  timestamp : string;
  render : string -> BanglaDateInfo -> outcome unit;
  login : string -> string -> outcome unit;
  readFileSync : string -> outcome (list byte);
  uploadBlob : list byte -> string -> outcome BlobRef;
  detectFacets : string -> outcome (list Facet);
  post : PostRecord -> outcome string;
  now : string
}.

Inductive level := Log | Warn | Err.

(** The calls the script makes, in the order it makes them. *)
Inductive event :=
| Console (l : level) (line : string)
| MkDir (path : string)
| Render (path : string)
| Login (identifier password : string)
| ReadFile (path : string)
| UploadBlob (data : list byte) (encoding : string)
| DetectFacets (text : string)
| CreatePost (record : PostRecord)
| Exit (code : Z).

(** A computation: the calls made so far, and a value or an exception. *)
Definition M (A : Type) : Type := list event * outcome A.

Definition ret {A} (a : A) : M A := ([], Returned a).

Definition bind {A B} (m : M A) (k : A -> M B) : M B :=
  match m with
  | (t, Thrown e) => (t, Thrown e)
  | (t, Returned a) => let '(t', r) := k a in (t ++ t', r)
  end.

(** [try { body } catch (error) { handler }] *)
Definition try_catch {A} (body : M A) (handler : Error -> M A) : M A :=
  match body with
  | (t, Thrown e) => let '(t', r) := handler e in (t ++ t', r)
  | (t, Returned a) => (t, Returned a)
  end.

(** A call to the outside, recorded, with the outcome the world gives. *)
Definition call {A} (e : event) (r : outcome A) : M A := ([e], r).

Definition console (l : level) (line : string) : M unit :=
  call (Console l line) (Returned tt).

Declare Scope js_scope.
Delimit Scope js_scope with js.
Notation "x <- m ;; k" := (bind m (fun x => k))
  (at level 100, m at next level, right associativity) : js_scope.
Notation "m ;; k" := (bind m (fun _ => k))
  (at level 100, right associativity) : js_scope.

Definition nl : string := String "010"%char "".

(** [process.env.NAME] *)
Definition env_get (w : World) (name : string) : value :=
  match env w !! name with
  | Some s => VString s
  | None => VUndefined
  end.

(** ** getBanglaDateInfo *)
Definition getBanglaDateInfo (w : World) : BanglaDateInfo :=
  let c := calendar w in
  {| date := getBanglaOrdinal (banglaDay c);
     month := banglaMonth c;
     year := banglaYear c;
     weekday := banglaWeekday c;
     season := getBanglaSeason (banglaMonth c);
     englishDate := todayInEnglish w |}.

(** The caption line of [createBanglaDateImage]. *)
Definition captionDateText (info : BanglaDateInfo) : string :=
  to_string (date info) +:+ " " +:+ month info +:+ ", " +:+ year info
    +:+ " ‡¶¨‡¶ô‡ßç‡¶ó‡¶æ‡¶¨‡ßç‡¶¶".

(** ** createBanglaDateImage; fonts, profile, drawing and the write of
    the PNG file are the world's [render]. *)
Definition createBanglaDateImage (w : World) (outputPath : string)
  : M (string * string * BanglaDateInfo) :=
  (console Log "üîÑ Generating Bangla date image..." ;;
   let banglaDateInfo := getBanglaDateInfo w in
   console Log ("üìÖ Date: " +:+ captionDateText banglaDateInfo) ;;
   call (Render outputPath) (render w outputPath banglaDateInfo) ;;
   console Log ("‚úÖ Image saved successfully: " +:+ outputPath) ;;
   ret (outputPath, captionDateText banglaDateInfo, banglaDateInfo))%js.

Definition hashtags : string :=
  "#Bangladesh #Bangla #‡¶¨‡¶æ‡¶Ç‡¶≤‡¶æ‡¶¶‡ßá‡¶∂ #‡¶¨‡¶æ‡¶Ç‡¶≤‡¶æ #‡¶¨‡¶æ‡¶Ç‡¶≤‡¶æ‡¶§‡¶æ‡¶∞‡¶ø‡¶ñ #‡¶§‡¶æ‡¶∞‡¶ø‡¶ñ #date #BanglaDate".

(** The template literal [postText]. *)
Definition postText (dateText : string) (banglaDateInfo : BanglaDateInfo) : string :=
  "‡¶Ü‡¶ú ‡¶∞‡ßã‡¶ú " +:+ weekday banglaDateInfo +:+ "," +:+ nl
    +:+ dateText +:+ nl
    +:+ "‡¶è‡¶¨‡¶Ç " +:+ to_string (season banglaDateInfo) +:+ "‡¶ï‡¶æ‡¶≤" +:+ nl +:+ nl
    +:+ hashtags.

Definition altText (dateText : string) : string :=
  "‡¶Ü‡¶ú‡¶ï‡ßá‡¶∞ ‡¶¨‡¶æ‡¶Ç‡¶≤‡¶æ ‡¶§‡¶æ‡¶∞‡¶ø‡¶ñ: " +:+ dateText.

(** The object literal [postRecord]. *)
Definition postRecord (w : World) (dateText rt_text : string)
    (rt_facets : list Facet) (blob : BlobRef) : PostRecord :=
  {| text := rt_text;
     facets := rt_facets;
     embed := {| type := "app.bsky.embed.images";
                 images := [ {| alt := altText dateText; image := blob |} ] |};
     createdAt := now w |}.

(** The body of the [try] block of [postToBluesky]. *)
Definition publish (w : World) (handle password imagePath dateText : string)
    (banglaDateInfo : BanglaDateInfo) : M bool :=
  (call (Login handle password) (login w handle password) ;;
   console Log "‚úÖ Logged in to Bluesky" ;;
   imageBuffer <- call (ReadFile imagePath) (readFileSync w imagePath) ;;
   blob <- call (UploadBlob imageBuffer "image/png")
                (uploadBlob w imageBuffer "image/png") ;;
   console Log "‚úÖ Image uploaded" ;;
   let postText := postText dateText banglaDateInfo in
   rt_facets <- call (DetectFacets postText) (detectFacets w postText) ;;
   let postRecord := postRecord w dateText postText rt_facets blob in
   uri <- call (CreatePost postRecord) (post w postRecord) ;;
   console Log ("‚úÖ Posted to Bluesky: " +:+ uri) ;;
   ret true)%js.

(** [process.env.BLUESKY_HANDLE || process.env.BSKY_USERNAME] *)
Definition handle (w : World) : value :=
  or_else (env_get w "BLUESKY_HANDLE") (env_get w "BSKY_USERNAME").

(** [process.env.BLUESKY_PASSWORD || process.env.BSKY_APP_PASSWORD] *)
Definition password (w : World) : value :=
  or_else (env_get w "BLUESKY_PASSWORD") (env_get w "BSKY_APP_PASSWORD").

(** ** postToBluesky *)
Definition postToBluesky (w : World) (imagePath dateText : string)
    (banglaDateInfo : BanglaDateInfo) : M bool :=
  (console Log "üîÑ Posting to Bluesky..." ;;
   if negb (truthy (handle w)) || negb (truthy (password w)) then
     console Warn "‚ö†Ô∏è  Bluesky credentials not found in environment variables" ;;
     console Log "Skipping Bluesky post..." ;;
     ret false
   else
     try_catch
       (publish w (to_string (handle w)) (to_string (password w))
                imagePath dateText banglaDateInfo)
       (fun error =>
          console Err ("‚ùå Error posting to Bluesky: " +:+ message error) ;;
          console Err (stack error) ;;
          ret false))%js.

(** [process.env.POST_TO_BLUESKY?.toLowerCase() === 'true'] *)
Definition shouldPost (w : World) : bool :=
  match env w !! "POST_TO_BLUESKY" with
  | Some s => String.eqb (toLowerCase s) "true"
  | None => false
  end.

(** [path.join(outputDir, `bangla_date_${timestamp}.png`)] *)
Definition outputPath (w : World) : string :=
  outputDir w +:+ "/bangla_date_" +:+ timestamp w +:+ ".png".

(** ** main; the result is the trace of a run in which every awaited
    call has settled.  [process.exit(1)] ends the process: it is the last
    event of the trace, and nothing of [main] runs after it. *)
Definition main (w : World) : M unit :=
  (try_catch
     (console Log "üîÑ Starting Bangla date image generator..." ;;
      (if existsSync w (outputDir w) then ret tt
       else call (MkDir (outputDir w)) (mkdirSync w (outputDir w))) ;;
      let outputPath := outputPath w in
      r <- createBanglaDateImage w outputPath ;;
      let '(_, captionDateText, banglaDateInfo) := r in
      (if shouldPost w then
         console Log (nl +:+ "üîÑ Posting to Bluesky...") ;;
         _ <- postToBluesky w outputPath captionDateText banglaDateInfo ;;
         ret tt
       else
         console Log (nl +:+ "‚ö†Ô∏è  POST_TO_BLUESKY not set to 'true', skipping Bluesky post") ;;
         console Log "üìù To post to Bluesky, set POST_TO_BLUESKY=true in your .env file") ;;
      console Log (nl +:+ "‚ú® Done!"))
     (fun error =>
        console Err ("‚ùå Error: " +:+ message error) ;;
        console Err (stack error) ;;
        call (Exit 1) (Returned tt)))%js.

(** The status the process ends with: the code given to [process.exit]
    when it was called, 0 when [main] ran to its end. *)
Fixpoint exit_status (t : list event) : Z :=
  match t with
  | [] => 0%Z
  | Exit code :: _ => code
  | _ :: t' => exit_status t'
  end.

(** Trace observations. *)
Definition is_upload (e : event) : bool :=
  match e with UploadBlob _ _ => true | _ => false end.
Definition is_createPost (e : event) : bool :=
  match e with CreatePost _ => true | _ => false end.
Definition is_login (e : event) : bool :=
  match e with Login _ _ => true | _ => false end.
Definition is_network (e : event) : bool :=
  match e with
  | Login _ _ | UploadBlob _ _ | DetectFacets _ | CreatePost _ => true
  | _ => false
  end.

Definition is_exit (e : event) : bool :=
  match e with Exit _ => true | _ => false end.

Definition count (p : event -> bool) (t : list event) : nat :=
  List.length (List.filter p t).

(** An environment variable that is not set, or set to the empty string. *)
Definition unset (w : World) (name : string) : Prop :=
  env w !! name = None \/ env w !! name = Some "".

(** A core step of the posting run fails with [e]: the login, the blob
    upload, or the creation of the post. *)
Inductive core_failure (w : World) (imagePath dateText : string)
    (info : BanglaDateInfo) (e : Error) : Prop :=
| login_fails :
    login w (to_string (handle w)) (to_string (password w)) = Thrown e ->
    core_failure w imagePath dateText info e
| upload_fails data :
    login w (to_string (handle w)) (to_string (password w)) = Returned tt ->
    readFileSync w imagePath = Returned data ->
    uploadBlob w data "image/png" = Thrown e ->
    core_failure w imagePath dateText info e
| post_fails data blob fs :
    login w (to_string (handle w)) (to_string (password w)) = Returned tt ->
    readFileSync w imagePath = Returned data ->
    uploadBlob w data "image/png" = Returned blob ->
    detectFacets w (postText dateText info) = Returned fs ->
    post w (postRecord w dateText (postText dateText info) fs blob) = Thrown e ->
    core_failure w imagePath dateText info e.

(** What the [catch] block of [postToBluesky] writes. *)
Definition caught (e : Error) : list event :=
  [ Console Err ("‚ùå Error posting to Bluesky: " +:+ message e);
    Console Err (stack e) ].

(** The runs of [postToBluesky], one rule for each place the function
    can leave at: the calls made, in order, and the value returned. *)
Inductive run (w : World) (imagePath dateText : string) (info : BanglaDateInfo)
  : list event -> outcome bool -> Prop :=
| run_skipped :
    negb (truthy (handle w)) || negb (truthy (password w)) = true ->
    run w imagePath dateText info
      [ Console Log "üîÑ Posting to Bluesky...";
        Console Warn "‚ö†Ô∏è  Bluesky credentials not found in environment variables";
        Console Log "Skipping Bluesky post..." ]
      (Returned false)
| run_login_failed e :
    negb (truthy (handle w)) || negb (truthy (password w)) = false ->
    login w (to_string (handle w)) (to_string (password w)) = Thrown e ->
    run w imagePath dateText info
      ([ Console Log "üîÑ Posting to Bluesky...";
         Login (to_string (handle w)) (to_string (password w)) ] ++ caught e)
      (Returned false)
| run_read_failed e :
    negb (truthy (handle w)) || negb (truthy (password w)) = false ->
    login w (to_string (handle w)) (to_string (password w)) = Returned tt ->
    readFileSync w imagePath = Thrown e ->
    run w imagePath dateText info
      ([ Console Log "üîÑ Posting to Bluesky...";
         Login (to_string (handle w)) (to_string (password w));
         Console Log "‚úÖ Logged in to Bluesky";
         ReadFile imagePath ] ++ caught e)
      (Returned false)
| run_upload_failed data e :
    negb (truthy (handle w)) || negb (truthy (password w)) = false ->
    login w (to_string (handle w)) (to_string (password w)) = Returned tt ->
    readFileSync w imagePath = Returned data ->
    uploadBlob w data "image/png" = Thrown e ->
    run w imagePath dateText info
      ([ Console Log "üîÑ Posting to Bluesky...";
         Login (to_string (handle w)) (to_string (password w));
         Console Log "‚úÖ Logged in to Bluesky";
         ReadFile imagePath;
         UploadBlob data "image/png" ] ++ caught e)
      (Returned false)
| run_facets_failed data blob e :
    negb (truthy (handle w)) || negb (truthy (password w)) = false ->
    login w (to_string (handle w)) (to_string (password w)) = Returned tt ->
    readFileSync w imagePath = Returned data ->
    uploadBlob w data "image/png" = Returned blob ->
    detectFacets w (postText dateText info) = Thrown e ->
    run w imagePath dateText info
      ([ Console Log "üîÑ Posting to Bluesky...";
         Login (to_string (handle w)) (to_string (password w));
         Console Log "‚úÖ Logged in to Bluesky";
         ReadFile imagePath;
         UploadBlob data "image/png";
         Console Log "‚úÖ Image uploaded";
         DetectFacets (postText dateText info) ] ++ caught e)
      (Returned false)
| run_post_failed data blob fs e :
    negb (truthy (handle w)) || negb (truthy (password w)) = false ->
    login w (to_string (handle w)) (to_string (password w)) = Returned tt ->
    readFileSync w imagePath = Returned data ->
    uploadBlob w data "image/png" = Returned blob ->
    detectFacets w (postText dateText info) = Returned fs ->
    post w (postRecord w dateText (postText dateText info) fs blob) = Thrown e ->
    run w imagePath dateText info
      ([ Console Log "üîÑ Posting to Bluesky...";
         Login (to_string (handle w)) (to_string (password w));
         Console Log "‚úÖ Logged in to Bluesky";
         ReadFile imagePath;
         UploadBlob data "image/png";
         Console Log "‚úÖ Image uploaded";
         DetectFacets (postText dateText info);
         CreatePost (postRecord w dateText (postText dateText info) fs blob) ]
       ++ caught e)
      (Returned false)
| run_posted data blob fs uri :
    negb (truthy (handle w)) || negb (truthy (password w)) = false ->
    login w (to_string (handle w)) (to_string (password w)) = Returned tt ->
    readFileSync w imagePath = Returned data ->
    uploadBlob w data "image/png" = Returned blob ->
    detectFacets w (postText dateText info) = Returned fs ->
    post w (postRecord w dateText (postText dateText info) fs blob) = Returned uri ->
    run w imagePath dateText info
      [ Console Log "üîÑ Posting to Bluesky...";
        Login (to_string (handle w)) (to_string (password w));
        Console Log "‚úÖ Logged in to Bluesky";
        ReadFile imagePath;
        UploadBlob data "image/png";
        Console Log "‚úÖ Image uploaded";
        DetectFacets (postText dateText info);
        CreatePost (postRecord w dateText (postText dateText info) fs blob);
        Console Log ("‚úÖ Posted to Bluesky: " +:+ uri) ]
      (Returned true).

End Index.

(** ** CaptionBudgetBuilder (design document, sections 3 and 4.2) *)

Module Caption.
Import JS.

(** Modelled from the spec: whether a segment may be dropped (the
    builder and its data are described in the design document only; the
    JavaScript sources compose one fixed caption). *)
Inductive Kind := Required | Optional.

(** Modelled from the spec: [CaptionSegment], section 3. *)
Record CaptionSegment := {
  seg_id : string;
  seg_text : string;
  priority : Z;
  kind : Kind;
  isHashtagBlock : bool
}.

(** Modelled from the spec: one entry of [hashtagSpans], section 3. *)
Record HashtagSpan := {
  segmentId : string;
  startByteOffset : nat;
  endByteOffset : nat
}.

(** Modelled from the spec: [BudgetedCaption], section 3. *)
Record BudgetedCaption := {
  text : string;
  hashtagSpans : list HashtagSpan
}.

(** Modelled from the spec: the failure of [build], section 7. *)
Inductive BuildError := CaptionTooLong.

(** Modelled from the spec: the segments of kind [Optional]. *)
Definition is_optional (s : CaptionSegment) : bool :=
  match kind s with Optional => true | Required => false end.

(** Modelled from the spec: the segments of kind [Required]. *)
Definition is_required (s : CaptionSegment) : bool :=
  negb (is_optional s).

(** Modelled from the spec: the candidate caption, all segment texts
    concatenated in their original order ([build] itself is not part of
    the JavaScript sources). *)
Fixpoint compose (segs : list CaptionSegment) : string :=
  match segs with
  | [] => ""
  | s :: rest => seg_text s +:+ compose rest
  end.

(** Modelled from the spec: the highest [priority] value among the
    remaining [Optional] segments, if there is one. *)
Fixpoint highest_priority (segs : list CaptionSegment) : option Z :=
  match segs with
  | [] => None
  | s :: rest =>
      if is_optional s then
        match highest_priority rest with
        | Some p => Some (Z.max (priority s) p)
        | None => Some (priority s)
        end
      else highest_priority rest
  end.

(** Modelled from the spec: a segment is dropped wholesale; this removes
    the first [Optional] segment of priority [p]. *)
Fixpoint remove_optional (p : Z) (segs : list CaptionSegment) : list CaptionSegment :=
  match segs with
  | [] => []
  | s :: rest =>
      if is_optional s && (priority s =? p)%Z then rest
      else s :: remove_optional p rest
  end.

(** Modelled from the spec: one removal of the remaining [Optional]
    segment with the highest priority value (the first one in caption
    order when several share it, which the design leaves open). *)
Definition drop_one (segs : list CaptionSegment) : option (list CaptionSegment) :=
  match highest_priority segs with
  | Some p => Some (remove_optional p segs)
  | None => None
  end.

(** Modelled from the spec: the candidate caption is within the
    character ceiling. *)
Definition fits (ceiling : nat) (segs : list CaptionSegment) : bool :=
  char_count (compose segs) <=? ceiling.

(** Modelled from the spec: repeat the removal until the ceiling is
    satisfied or no [Optional] segment remains; [rounds] bounds the
    number of removals and the number of segments is always enough. *)
Fixpoint shrink (rounds : nat) (ceiling : nat) (segs : list CaptionSegment)
  : list CaptionSegment :=
  if fits ceiling segs then segs
  else
    match rounds with
    | 0 => segs
    | S rounds' =>
        match drop_one segs with
        | Some segs' => shrink rounds' ceiling segs'
        | None => segs
        end
    end.

(** Modelled from the spec: a word character, read on UTF-8 bytes as an
    ASCII letter, digit or underscore, or a byte of a multi-byte
    (non-ASCII) letter. *)
Definition is_word_byte (c : ascii) : bool :=
  let n := nat_of_ascii c in
  ((48 <=? n) && (n <=? 57)) || ((65 <=? n) && (n <=? 90))
  || ((97 <=? n) && (n <=? 122)) || (n =? 95) || (128 <=? n).

(** Modelled from the spec: the length of the contiguous run of word
    characters that starts [s]. *)
Fixpoint word_run (s : string) : nat :=
  match s with
  | EmptyString => 0
  | String c s' => if is_word_byte c then S (word_run s') else 0
  end.

(** Modelled from the spec: hashtag detection, a leading [#] followed by
    a contiguous, non-empty run of word characters; the result is the
    list of byte ranges [(start, end)], [offset] being the byte position
    of [s] in the whole text. *)
Fixpoint scan_hashtags (offset : nat) (s : string) : list (nat * nat) :=
  match s with
  | EmptyString => []
  | String c s' =>
      if Ascii.eqb c "#" then
        match word_run s' with
        | 0 => scan_hashtags (S offset) s'
        | S n => (offset, offset + 2 + n) :: scan_hashtags (S offset) s'
        end
      else scan_hashtags (S offset) s'
  end.

(** Modelled from the spec: the span of a range found in segment [s]. *)
Definition span_of (s : CaptionSegment) (r : nat * nat) : HashtagSpan :=
  {| segmentId := seg_id s; startByteOffset := fst r; endByteOffset := snd r |}.

(** Modelled from the spec: the spans are computed against the final
    text only, segment by segment, for the hashtag blocks that are left. *)
Fixpoint spans_from (offset : nat) (segs : list CaptionSegment) : list HashtagSpan :=
  match segs with
  | [] => []
  | s :: rest =>
      (if isHashtagBlock s
       then List.map (span_of s) (scan_hashtags offset (seg_text s))
       else [])
      ++ spans_from (offset + String.length (seg_text s)) rest
  end.

(** Modelled from the spec: [build(segments, ceiling)]. *)
Definition build (segments : list CaptionSegment) (ceiling : nat)
  : BuildError + BudgetedCaption :=
  let final := shrink (List.length segments) ceiling segments in
  if fits ceiling final
  then inr {| text := compose final; hashtagSpans := spans_from 0 final |}
  else inl CaptionTooLong.

(** Modelled from the spec: the removal rule in the words of section
    4.2; one step removes, whole, an [Optional] segment whose priority
    value no remaining [Optional] segment exceeds, from a caption that is
    still over the ceiling. *)
Inductive drop_step (ceiling : nat) : list CaptionSegment -> list CaptionSegment -> Prop :=
| drop_step_intro before s after :
    fits ceiling (before ++ s :: after) = false ->
    kind s = Optional ->
    (forall s', In s' (before ++ s :: after) -> kind s' = Optional ->
                (priority s' <= priority s)%Z) ->
    drop_step ceiling (before ++ s :: after) (before ++ after).

(** Modelled from the spec: the repetition, zero or more such steps. *)
Inductive drops (ceiling : nat) : list CaptionSegment -> list CaptionSegment -> Prop :=
| drops_refl segs : drops ceiling segs segs
| drops_step segs segs' segs'' :
    drop_step ceiling segs segs' -> drops ceiling segs' segs'' ->
    drops ceiling segs segs''.

(** Modelled from the spec: what it means for a byte range to index an
    exact [#token] of [t]. *)
Definition exact_hashtag (t : string) (start stop : nat) : Prop :=
  start + 2 <= stop /\ stop <= String.length t /\
  exists token,
    String.substring start (stop - start) t = String "#" token /\
    String.length token = stop - start - 1 /\
    word_run token = String.length token.

End Caption.

(** ** SizeBudgetCompressor (design document, sections 3 and 4.1) *)

Module Compressor.

(** Modelled from the spec: [RawImage], section 3 (the compressor and its
    data are described in the design document only; the JavaScript
    sources upload the generated file as it is). *)
Record RawImage := {
  raw_bytes : list byte;
  raw_mimeType : string;
  width : nat;
  height : nat
}.

(** Modelled from the spec: [CompressedImage], section 3. *)
Record CompressedImage := {
  bytes : list byte;
  mimeType : string;
  qualityUsed : nat;
  resized : bool
}.

(** Modelled from the spec: the failure of [compress], section 7. *)
Inductive CompressError := CompressionExhausted.

(** Modelled from the spec: the default quality ladder, 100 down to 20
    in steps of 5 ([compress] is not part of the JavaScript sources). *)
Definition qualityLadder : list nat :=
  [100; 95; 90; 85; 80; 75; 70; 65; 60; 55; 50; 45; 40; 35; 30; 25; 20].

Section Ladder.
(** The encoder, deterministic for an image and a quality. *)
Variable reencode : RawImage -> nat -> list byte.
(** One reduction of the dimensions by the fixed factor. *)
Variable downscale : RawImage -> RawImage.
(** The bound on the number of resize iterations. *)
Variable maxResizes : nat.

(** Modelled from the spec: walk the ladder downwards, re-encode at
    each level, return the first result within the ceiling. *)
Fixpoint try_ladder (image : RawImage) (ladder : list nat) (byteCeiling : nat)
  : option (list byte * nat) :=
  match ladder with
  | [] => None
  | q :: ladder' =>
      let out := reencode image q in
      if List.length out <=? byteCeiling then Some (out, q)
      else try_ladder image ladder' byteCeiling
  end.

(** Modelled from the spec: the quality ladder first; when all of it
    fails, resize and retry, a bounded number of times. *)
Fixpoint compress_from (resizesLeft : nat) (wasResized : bool)
    (image : RawImage) (byteCeiling : nat) : CompressError + CompressedImage :=
  match try_ladder image qualityLadder byteCeiling with
  | Some (out, q) =>
      inr {| bytes := out; mimeType := raw_mimeType image;
             qualityUsed := q; resized := wasResized |}
  | None =>
      match resizesLeft with
      | 0 => inl CompressionExhausted
      | S n => compress_from n true (downscale image) byteCeiling
      end
  end.

(** Modelled from the spec: [compress(image, byteCeiling)]. *)
Definition compress (image : RawImage) (byteCeiling : nat)
  : CompressError + CompressedImage :=
  compress_from maxResizes false image byteCeiling.

End Ladder.

End Compressor.

(** ** PostAssembler (design document, sections 3 and 4.3) *)

Module Assembler.
Import Compressor.

(** Modelled from the spec: the failures of [assemble], section 7 (the
    assembler and its data are described in the design document only). *)
Inductive AssembleError := TooManyImages | ImageAltMismatch.

(** Modelled from the spec: one entry of [PostPayload.images]. *)
Record PayloadImage := {
  compressedImage : CompressedImage;
  altText : string
}.

(** Modelled from the spec: [PostPayload], section 3. *)
Record PostPayload := {
  captionText : string;
  hashtagSpans : list Caption.HashtagSpan;
  images : list PayloadImage;
  createdAt : string
}.

(** Modelled from the spec: each image with its alt text, in order. *)
Fixpoint pair_up (imgs : list CompressedImage) (alts : list string) : list PayloadImage :=
  match imgs, alts with
  | i :: imgs', a :: alts' =>
      {| compressedImage := i; altText := a |} :: pair_up imgs' alts'
  | _, _ => []
  end.

(** Modelled from the spec: [assemble(images, altTexts, caption)] under
    a configured [maxImagesPerPost]; an empty or too long image list is
    [TooManyImages], sequences of different lengths are
    [ImageAltMismatch] ([assemble] is not part of the JavaScript
    sources). *)
Definition assemble (maxImagesPerPost : nat) (timeNow : string)
    (imgs : list CompressedImage) (altTexts : list string)
    (caption : Caption.BudgetedCaption) : AssembleError + PostPayload :=
  if (List.length imgs =? 0) || (maxImagesPerPost <? List.length imgs)
  then inl TooManyImages
  else if negb (List.length imgs =? List.length altTexts)
  then inl ImageAltMismatch
  else inr {| captionText := Caption.text caption;
              hashtagSpans := Caption.hashtagSpans caption;
              images := pair_up imgs altTexts;
              createdAt := timeNow |}.

End Assembler.

(** ** The wording of the documentation, to compare the tables with *)

Module Wording.

(** The ten Bangla digits, zero to nine. *)
Definition bangla_digit (d : nat) : string :=
  match d with
  | 0 => "০" | 1 => "১" | 2 => "২" | 3 => "৩" | 4 => "৪"
  | 5 => "৫" | 6 => "৬" | 7 => "৭" | 8 => "৮" | _ => "৯"
  end.

(** A day of the month written in Bangla numerals. *)
Definition bangla_numeral (n : nat) : string :=
  if n <? 10 then bangla_digit n
  else bangla_digit (n / 10) +:+ bangla_digit (n mod 10).

(** The ordinal suffix of a day: 1, 2-3, 4, 5-18, 19-31. *)
Definition ordinal_suffix (n : nat) : string :=
  if n =? 1 then "লা"
  else if n <=? 3 then "রা"
  else if n =? 4 then "ঠা"
  else if n <=? 18 then "ই"
  else "শে".

(** The twelve months, in calendar order. *)
Definition months : list string :=
  [ "বৈশাখ"; "জ্যৈষ্ঠ"; "আষাঢ়"; "শ্রাবণ"; "ভাদ্র"; "আশ্বিন";
    "কার্তিক"; "অগ্রহায়ণ"; "পৌষ"; "মাঘ"; "ফাল্গুন"; "চৈত্র" ].

(** The six seasons, in calendar order. *)
Definition seasons : list string :=
  [ "গ্রীষ্ম"; "বর্ষা"; "শরৎ"; "হেমন্ত"; "শীত"; "বসন্ত" ].

(** The season of the [i]-th month: months go in consecutive pairs. *)
Definition season_of_index (i : nat) : string :=
  nth (i / 2) seasons "".

End Wording.

(** ** Hashtag facets of a whole text *)

Module RichText.
Import Index.

(** Modelled from the spec: a facet is a byte range and the tag it
    covers, without the leading marker (the facet detection of the
    [@atproto/api] package is not in the repository). *)
Definition facet_of (t : string) (r : nat * nat) : Facet :=
  {| byteStart := fst r;
     byteEnd := snd r;
     tag := String.substring (S (fst r)) (snd r - fst r - 1) t |}.

(** Modelled from the spec: the hashtag facets of a text, by the scan of
    section 4.2 over the whole text ([RichText.detectFacets] belongs to
    the [@atproto/api] package and is not in the repository). *)
Definition hashtag_facets (t : string) : list Facet :=
  List.map (facet_of t) (Caption.scan_hashtags 0 t).

End RichText.

(** ** Worlds and inputs to run the definitions on *)

Module Samples.
Import Index Caption.

Definition credentials : gmap string string :=
  list_to_map [
    ("BLUESKY_HANDLE", "sayed.app");
    ("BLUESKY_PASSWORD", "app-password");
    ("POST_TO_BLUESKY", "true")
  ].

(** The date of the README: ২৩ কার্তিক, ১৪৩২ বঙ্গাব্দ, a Friday. *)
Definition today : Calendar :=
  {| banglaDay := "২৩"; banglaMonth := "কার্তিক";
     banglaYear := "১৪৩২"; banglaWeekday := "শুক্রবার" |}.

Definition png : list byte := [x89; x50; x4e; x47; x0d; x0a; x1a; x0a].

(** A world in which every call succeeds. *)
Definition calm (vars : gmap string string) (file : list byte) : World :=
  {| env := vars;
     calendar := today;
     todayInEnglish := "November 07, 2025";
     outputDir := "output";
     existsSync := fun _ => true;
     mkdirSync := fun _ => Returned tt;
     timestamp := "2025-11-06_230000";
     render := fun _ _ => Returned tt;
     login := fun _ _ => Returned tt;
     readFileSync := fun _ => Returned file;
     uploadBlob := fun _ _ => Returned {| cid := "bafkreihdwdcefgh" |};
     detectFacets := fun t => Returned (RichText.hashtag_facets t);
     post := fun _ => Returned "at://did:plc:example/app.bsky.feed.post/3m4";
     now := "2025-11-06T23:00:00.000Z" |}.

Definition refused : Error :=
  {| message := "Invalid identifier or password";
     stack := "Error: Invalid identifier or password" |}.

Definition too_large : Error :=
  {| message := "This file is too large";
     stack := "Error: This file is too large" |}.

Definition with_login (w : World) (f : string -> string -> outcome unit) : World :=
  {| env := env w; calendar := calendar w; todayInEnglish := todayInEnglish w;
     outputDir := outputDir w; existsSync := existsSync w;
     mkdirSync := mkdirSync w; timestamp := timestamp w; render := render w;
     login := f;
     readFileSync := readFileSync w; uploadBlob := uploadBlob w;
     detectFacets := detectFacets w; post := post w; now := now w |}.

Definition with_uploadBlob (w : World)
    (f : list byte -> string -> outcome BlobRef) : World :=
  {| env := env w; calendar := calendar w; todayInEnglish := todayInEnglish w;
     outputDir := outputDir w; existsSync := existsSync w;
     mkdirSync := mkdirSync w; timestamp := timestamp w; render := render w;
     login := login w;
     readFileSync := readFileSync w; uploadBlob := f;
     detectFacets := detectFacets w; post := post w; now := now w |}.

Definition happy : World := calm credentials png.

Definition login_refused : World :=
  with_login happy (fun _ _ => Thrown refused).

Definition upload_refused : World :=
  with_uploadBlob happy (fun _ _ => Thrown too_large).

Definition no_credentials : World :=
  calm (list_to_map [("POST_TO_BLUESKY", "true")]) png.

(** A file of 1,000,001 bytes, one more than a megabyte. *)
Definition oversized_file : list byte := repeat x00 (N.to_nat 1000001).

Definition oversized : World := calm credentials oversized_file.

Definition path : string := "output/bangla_date_2025-11-06_230000.png".

Definition info : BanglaDateInfo := getBanglaDateInfo happy.

Definition dateText : string := captionDateText info.

(** The caption scenario of the design document, section 8. *)
Definition wallpaper : list CaptionSegment :=
  [ {| seg_id := "title"; seg_text := "Today's wallpaper"; priority := 0;
       kind := Required; isHashtagBlock := false |};
    {| seg_id := "region"; seg_text := " — Region: JP"; priority := 2;
       kind := Optional; isHashtagBlock := false |};
    {| seg_id := "tags"; seg_text := " #Wallpaper #Photo"; priority := 1;
       kind := Optional; isHashtagBlock := true |} ].

End Samples.

(** ** scripts/bangla-dates/utils.js: toBangladeshTime and padZero *)

Module UtilsTime.

(** A [Date] object: its time value, in milliseconds since the epoch, or
    Invalid Date. *)
Inductive Date :=
| ValidDate (t : Z)
| InvalidDate.

(** The largest time value of a [Date], 100,000,000 days. *)
Definition maxTime : Z := 8640000000000000.

(** [new Date(value)]: the value is clipped to the range of time values;
    [None] stands for NaN. *)
Definition newDate (value : option Z) : Date :=
  match value with
  | Some t => if (Z.abs t <=? maxTime)%Z then ValidDate t else InvalidDate
  | None => InvalidDate
  end.

(** [date.getTime()], NaN for Invalid Date. *)
Definition getTime (date : Date) : option Z :=
  match date with
  | ValidDate t => Some t
  | InvalidDate => None
  end.

(** [a + b] on numbers, for an integer [b]. *)
Definition plus (a : option Z) (b : Z) : option Z :=
  match a with
  | Some x => Some (x + b)%Z
  | None => None
  end.

(** [toBangladeshTime(date)] *)
Definition toBangladeshTime (date : Date) : Date :=
  let utcTime := getTime date in
  let bdOffset := (6 * 60 * 60 * 1000)%Z in
  newDate (plus utcTime bdOffset).

(** [bdTime] of [getBanglaDateInfo] in index.js, from [now] and what
    [now.getTimezoneOffset()] answers, in minutes. *)
Definition bdTime (now : Date) (timezoneOffset : Z) : Date :=
  let utcTime := plus (getTime now) (timezoneOffset * 60000)%Z in
  newDate (plus utcTime (6 * 60 * 60 * 1000)%Z).

(** The UTC readings of a time value, as the language defines them. *)
Definition Day (t : Z) : Z := (t / 86400000)%Z.
Definition HourFromTime (t : Z) : Z := ((t / 3600000) mod 24)%Z.
Definition MinFromTime (t : Z) : Z := ((t / 60000) mod 60)%Z.
Definition SecFromTime (t : Z) : Z := ((t / 1000) mod 60)%Z.
Definition msFromTime (t : Z) : Z := (t mod 1000)%Z.

(** One decimal digit. *)
Definition digit (d : nat) : ascii :=
  match d with
  | 0 => "0" | 1 => "1" | 2 => "2" | 3 => "3" | 4 => "4"
  | 5 => "5" | 6 => "6" | 7 => "7" | 8 => "8" | _ => "9"
  end%char.

(** The decimal digits of [n] in front of [acc], most significant first;
    [rounds] more digits at most after the first one. *)
Fixpoint digits (rounds : nat) (n : N) (acc : string) : string :=
  let acc' := String (digit (N.to_nat (n mod 10))) acc in
  match rounds with
  | 0 => acc'
  | S rounds' =>
      if (n <? 10)%N then acc' else digits rounds' (n / 10) acc'
  end.

(** [num.toString()] for a safe integer (magnitude at most 2^53 - 1),
    the range in which a number is an exact integer and prints as its
    decimal digits. *)
Definition toString (num : Z) : string :=
  if (num <? 0)%Z then String "-" (digits 20 (Z.to_N (- num)) "")
  else digits 20 (Z.to_N num) "".

Fixpoint repeat_char (n : nat) (c : ascii) : string :=
  match n with
  | 0 => ""
  | S n' => String c (repeat_char n' c)
  end.

(** [s.padStart(targetLength, padString)] for a pad string of one
    character. *)
Definition padStart (targetLength : nat) (padChar : ascii) (s : string) : string :=
  if targetLength <=? JS.length s then s
  else repeat_char (targetLength - JS.length s) padChar +:+ s.

(** [padZero(num)] *)
Definition padZero (num : Z) : string :=
  padStart 2 "0" (toString num).

End UtilsTime.

(** ** scripts/bangla-dates/index.js: hexToRgb *)

Module Colors.

Record RGB := { r : nat; g : nat; b : nat }.

(** The character class [[a-f\d]] under the [i] flag. *)
Definition is_hex_digit (c : ascii) : bool :=
  let n := nat_of_ascii c in
  ((48 <=? n) && (n <=? 57)) || ((97 <=? n) && (n <=? 102))
  || ((65 <=? n) && (n <=? 70)).

(** The value of a hexadecimal digit, as [parseInt(_, 16)] reads it. *)
Definition hex_digit_value (c : ascii) : nat :=
  let n := nat_of_ascii c in
  if n <=? 57 then n - 48 else if n <=? 70 then n - 55 else n - 87.

(** [parseInt(group, 16)] on a group of two hexadecimal digits. *)
Definition parseInt16 (group : ascii * ascii) : nat :=
  16 * hex_digit_value (fst group) + hex_digit_value (snd group).

(** The rest of the pattern, [([a-f\d]{2})([a-f\d]{2})([a-f\d]{2})$]:
    the three groups when [s] is exactly six hexadecimal digits. *)
Definition three_groups (s : string)
  : option ((ascii * ascii) * (ascii * ascii) * (ascii * ascii)) :=
  match s with
  | String c1 (String c2 (String c3 (String c4 (String c5 (String c6 EmptyString))))) =>
      if is_hex_digit c1 && is_hex_digit c2 && is_hex_digit c3
         && is_hex_digit c4 && is_hex_digit c5 && is_hex_digit c6
      then Some ((c1, c2), (c3, c4), (c5, c6))
      else None
  | _ => None
  end.

(** [/^#?([a-f\d]{2})([a-f\d]{2})([a-f\d]{2})$/i.exec(hex)]: the optional
    [#] is taken first when it is there, and given back when the rest
    does not match. *)
Definition exec (hex : string)
  : option ((ascii * ascii) * (ascii * ascii) * (ascii * ascii)) :=
  match hex with
  | String c rest =>
      if Ascii.eqb c "#" then
        match three_groups rest with
        | Some groups => Some groups
        | None => three_groups hex
        end
      else three_groups hex
  | EmptyString => three_groups hex
  end.

(** All characters of [s] are hexadecimal digits. *)
Fixpoint all_hex_digits (s : string) : bool :=
  match s with
  | EmptyString => true
  | String c s' => is_hex_digit c && all_hex_digits s'
  end.

(** The object built from a match: [parseInt] of each group. *)
Definition rgb_of (result : (ascii * ascii) * (ascii * ascii) * (ascii * ascii)) : RGB :=
  let '(g1, g2, g3) := result in
  {| r := parseInt16 g1; g := parseInt16 g2; b := parseInt16 g3 |}.

(** [hexToRgb(hex)] *)
Definition hexToRgb (hex : string) : RGB :=
  match exec hex with
  | Some result => rgb_of result
  | None => {| r := 0; g := 0; b := 0 |}
  end.

(** The way back, to compare with: a hexadecimal digit, in either case. *)
Definition hex_char (upper : bool) (n : nat) : ascii :=
  ascii_of_nat (if n <? 10 then 48 + n else if upper then 55 + n else 87 + n).

(** A colour written as six hexadecimal digits, with or without [#]. *)
Definition to_hex (hash upper : bool) (c : RGB) : string :=
  let two n := String (hex_char upper (n / 16)) (String (hex_char upper (n mod 16)) "") in
  (if hash then "#" else "") +:+ two (r c) +:+ two (g c) +:+ two (b c).

End Colors.

(** ** scripts/bangla-dates/index.js: fonts, profile and downloads *)

Module Studio.
Import JS Index.

(** What [fetch] resolves with: [response.ok], [response.status] and
    what [response.json()] gives. *)
Record Profile := {
  profile_handle : option string;
  profile_displayName : option string;
  profile_avatar : option string
}.

Record Response := {
  ok : bool;
  status : Z;
  json : outcome Profile
}.

(** What comes in on an HTTPS response. *)
Inductive stream_event :=
| Data (chunk : list byte)
| End
| StreamError (e : Error).

(** What [https.get] leads to: an error on the request, or a response
    and the events on it, in the order they arrive. *)
Inductive reply :=
| RequestError (e : Error)
| Incoming (events : list stream_event).

(** The part of the outside that these functions use. *)
Record Assets := {
  fontsDir : string;
  fileExists : string -> bool;
  registerFont : string -> string -> outcome unit;
  fetch : string -> outcome Response;
  httpsGet : string -> reply
}.

Inductive event :=
| Console (l : level) (line : string)
| RegisterFont (path family : string)
| Fetch (url : string)
| HttpsGet (url : string).

(** [path.join(dir, name)] for a plain file name. *)
Definition join (dir name : string) : string := dir +:+ "/" +:+ name.

(** The inner loop of [loadFonts] over the patterns of one fallback
    font: the calls made, and whether a font was registered. *)
Fixpoint tryPatterns (a : Assets) (name : string) (patterns : list string)
  : list event * bool :=
  match patterns with
  | [] => ([], false)
  | pattern :: rest =>
      let fallbackPath := join (fontsDir a) pattern in
      if fileExists a fallbackPath then
        match registerFont a fallbackPath name with
        | Returned _ =>
            ([ RegisterFont fallbackPath name;
               Console Log ("‚úÖ Loaded fallback font: " +:+ name) ], true)
        | Thrown _ =>
            let '(t, loaded) := tryPatterns a name rest in
            (RegisterFont fallbackPath name :: t, loaded)
        end
      else tryPatterns a name rest
  end.

(** The outer loop of [loadFonts] over the fallback fonts: the calls
    made, and the family that was registered, if any. *)
Fixpoint tryFallbacks (a : Assets) (fallbackFonts : list (string * list string))
  : list event * option string :=
  match fallbackFonts with
  | [] => ([], None)
  | (name, patterns) :: rest =>
      let '(t, loaded) := tryPatterns a name patterns in
      if loaded then (t, Some name)
      else let '(t', family) := tryFallbacks a rest in (t ++ t', family)
  end.

Definition fallbackFonts : list (string * list string) :=
  [ ("Hind Siliguri", [ "Hind-Siliguri.ttf"; "HindSiliguri-Regular.ttf" ]);
    ("Noto Sans Bengali", [ "NotoSansBengali-Regular.ttf" ]) ].

(** [loadFonts()]: the calls made and the font family returned. *)
Definition loadFonts (a : Assets) : list event * string :=
  let ekushPath := join (fontsDir a) "Ekush-Regular.ttf" in
  let '(t1, loaded) :=
    if fileExists a ekushPath then
      match registerFont a ekushPath "Ekush" with
      | Returned _ =>
          ([ RegisterFont ekushPath "Ekush"; Console Log "‚úÖ Loaded Ekush font" ],
           Some "Ekush")
      | Thrown error =>
          ([ RegisterFont ekushPath "Ekush";
             Console Warn ("‚ö†Ô∏è  Could not load Ekush font: " +:+ message error) ],
           None)
      end
    else ([], None) in
  let '(t2, loaded) :=
    match loaded with
    | Some family => ([], Some family)
    | None => tryFallbacks a fallbackFonts
    end in
  match loaded with
  | Some family => (t1 ++ t2, family)
  | None =>
      (t1 ++ t2 ++ [ Console Warn "‚ö†Ô∏è  No custom fonts loaded, using system default" ],
       "sans-serif")
  end.

(** The four font files that [loadFonts] goes through, in its order,
    each with the family it is registered under. *)
Definition candidates (a : Assets) : list (string * string) :=
  [ (join (fontsDir a) "Ekush-Regular.ttf", "Ekush");
    (join (fontsDir a) "Hind-Siliguri.ttf", "Hind Siliguri");
    (join (fontsDir a) "HindSiliguri-Regular.ttf", "Hind Siliguri");
    (join (fontsDir a) "NotoSansBengali-Regular.ttf", "Noto Sans Bengali") ].

(** Whether [registerFont] accepts the file. *)
Definition registers (a : Assets) (c : string * string) : bool :=
  match registerFont a (fst c) (snd c) with
  | Returned _ => true
  | Thrown _ => false
  end.

(** A search through a list of candidates, to compare [loadFonts] with:
    files that are not there are passed over, the others are tried in
    order, and the first that registers ends the search.  The result is
    the list of files tried and the family found. *)
Fixpoint first_success (a : Assets) (l : list (string * string))
  : list (string * string) * option string :=
  match l with
  | [] => ([], None)
  | c :: rest =>
      if fileExists a (fst c) then
        if registers a c then ([c], Some (snd c))
        else let '(tried, found) := first_success a rest in (c :: tried, found)
      else first_success a rest
  end.

(** The [registerFont] calls of a trace, in order. *)
Fixpoint registrations (t : list event) : list (string * string) :=
  match t with
  | [] => []
  | RegisterFont path family :: t' => (path, family) :: registrations t'
  | _ :: t' => registrations t'
  end.

(** [handle.includes('@')] *)
Fixpoint includes_at (s : string) : bool :=
  match s with
  | EmptyString => false
  | String c s' => Ascii.eqb c "@" || includes_at s'
  end.

(** [handle.split('@')[0]] *)
Fixpoint split_at_0 (s : string) : string :=
  match s with
  | EmptyString => EmptyString
  | String c s' => if Ascii.eqb c "@" then EmptyString else String c (split_at_0 s')
  end.

(** [handle] of [getProfileInfo]:
    [process.env.BLUESKY_HANDLE || process.env.BSKY_USERNAME || 'sayed.app'] *)
Definition configuredHandle (w : World) : string :=
  to_string (or_else (handle w) (VString "sayed.app")).

(** [cleanHandle] of [getProfileInfo]. *)
Definition cleanHandle (w : World) : string :=
  let handle := configuredHandle w in
  if includes_at handle then split_at_0 handle else handle.

(** [field || fallback] for a field that is a string or is not there. *)
Definition field_or (field : option string) (fallback : string) : string :=
  match field with
  | Some s => if String.eqb s "" then fallback else s
  | None => fallback
  end.

(** [profile.avatar || null] *)
Definition avatar_or_null (field : option string) : option string :=
  match field with
  | Some s => if String.eqb s "" then None else Some s
  | None => None
  end.

Record ProfileInfo := {
  handle : string;
  displayName : string;
  avatar : option string
}.

Definition profileUrl (w : World) : string :=
  "https://public.api.bsky.app/xrpc/app.bsky.actor.getProfile?actor="
    +:+ cleanHandle w.

(** [getProfileInfo()]: the calls made and the profile returned. *)
Definition getProfileInfo (w : World) (a : Assets) : list event * ProfileInfo :=
  let cleanHandle := cleanHandle w in
  let fallback :=
    {| handle := cleanHandle; displayName := cleanHandle; avatar := None |} in
  match fetch a (profileUrl w) with
  | Returned response =>
      if ok response then
        match json response with
        | Returned profile =>
            ([ Fetch (profileUrl w) ],
             {| handle := field_or (profile_handle profile) cleanHandle;
                displayName := field_or (profile_displayName profile) cleanHandle;
                avatar := avatar_or_null (profile_avatar profile) |})
        | Thrown error =>
            ([ Fetch (profileUrl w);
               Console Warn ("‚ö†Ô∏è  Error fetching profile: " +:+ message error) ],
             fallback)
        end
      else
        ([ Fetch (profileUrl w);
           Console Warn ("‚ö†Ô∏è  Could not fetch profile from API: "
                         +:+ UtilsTime.toString (status response)) ],
         fallback)
  | Thrown error =>
      ([ Fetch (profileUrl w);
         Console Warn ("‚ö†Ô∏è  Error fetching profile: " +:+ message error) ],
       fallback)
  end.

(** The promise of [downloadImage] while the response events come in:
    [None] as long as it is pending. *)
Fixpoint settle (chunks : list (list byte)) (events : list stream_event)
  : option (outcome (list byte)) :=
  match events with
  | [] => None
  | Data chunk :: rest => settle (chunks ++ [chunk]) rest
  | End :: _ => Some (Returned (List.concat chunks))
  | StreamError e :: _ => Some (Thrown e)
  end.

(** [downloadImage(url)]: what the promise settles with, if it does. *)
Definition downloadImage (a : Assets) (url : string) : option (outcome (list byte)) :=
  match httpsGet a url with
  | RequestError e => Some (Thrown e)
  | Incoming events => settle [] events
  end.

End Studio.

(** ** Order of the calls in a trace *)

Module Order.
Import Index.

(** No event that satisfies [q] comes before the first event that
    satisfies [p]. *)
Fixpoint guarded (p q : event -> bool) (t : list event) : bool :=
  match t with
  | [] => true
  | e :: t' => if p e then true else if q e then false else guarded p q t'
  end.

Definition is_render (e : event) : bool :=
  match e with Render _ => true | _ => false end.

Definition is_readFile (e : event) : bool :=
  match e with ReadFile _ => true | _ => false end.

(** A call to the agent, or the read of the image file. *)
Definition is_posting (e : event) : bool :=
  is_network e || is_readFile e.

(** The sixteen ways to write [true] in upper and lower case. *)
Definition spellings_of_true : list string :=
  [ "true"; "truE"; "trUe"; "trUE"; "tRue"; "tRuE"; "tRUe"; "tRUE";
    "True"; "TruE"; "TrUe"; "TrUE"; "TRue"; "TRuE"; "TRUe"; "TRUE" ].

End Order.

(** ** More worlds and inputs *)

Module MoreSamples.
Import Index Studio.

(** Only the second Hind Siliguri file is there. *)
Definition hind_only : Assets :=
  {| fontsDir := "fonts";
     fileExists := fun p => String.eqb p "fonts/HindSiliguri-Regular.ttf";
     registerFont := fun _ _ => Returned tt;
     fetch := fun _ => Thrown {| message := "fetch failed"; stack := "TypeError: fetch failed" |};
     httpsGet := fun _ =>
       Incoming [ Data [x89; x50]; Data [x4e; x47]; End ] |}.

(** An environment whose handle is written with a leading [@]. *)
Definition at_handle : World :=
  Samples.calm (list_to_map [("BLUESKY_HANDLE", "@sayed.app")]) Samples.png.

End MoreSamples.

Import JS Utils Wording Index.

(** * Properties *)

Example getBanglaOrdinal_23 : getBanglaOrdinal "২৩" = VString "২৩শে".
Proof. reflexivity. Qed.

Example getBanglaSeason_kartik : getBanglaSeason "কার্তিক" = VString "হেমন্ত".
Proof. reflexivity. Qed.

(** ** utils.js *)

Lemma lookup_list_to_map_In {V} (l : list (string * V)) k v :
  (list_to_map l : gmap string V) !! k = Some v -> In (k, v) l.
Proof.
  intros H. apply list_elem_of_In. by apply elem_of_list_to_map_2.
Qed.

(** Every day from 1 to 31, written in Bangla numerals, is a key of the
    table, and its entry is the numeral followed by the suffix the
    documentation gives for that day. *)
Lemma BANGLA_ORDINALS_numeral n :
  1 <= n <= 31 ->
  BANGLA_ORDINALS !! bangla_numeral n = Some (bangla_numeral n +:+ ordinal_suffix n).
Proof.
  intros [Hlo Hhi].
  do 32 (destruct n as [|n]; [first [lia | vm_compute; reflexivity] |]).
  lia.
Qed.

Ltac find_index k bound :=
  lazymatch k with
  | bound => fail "no index below the bound"
  | _ => first [ exists k; split; [lia | reflexivity] | find_index (S k) bound ]
  end.

(** The table has no other key. *)
Lemma BANGLA_ORDINALS_keys s v :
  BANGLA_ORDINALS !! s = Some v ->
  exists n, 1 <= n <= 31 /\ s = bangla_numeral n.
Proof.
  intros H. apply lookup_list_to_map_In in H. simpl in H.
  repeat (destruct H as [H | H]; [injection H as <- <-; find_index 1 32 |]).
  destruct H.
Qed.

(** No day numeral is the name of an inherited property. *)
Lemma numeral_not_inherited n :
  1 <= n <= 31 -> Object_prototype !! bangla_numeral n = None.
Proof.
  intros [Hlo Hhi].
  do 32 (destruct n as [|n]; [first [lia | vm_compute; reflexivity] |]).
  lia.
Qed.

(** Everything [Object.prototype] provides is truthy. *)
Lemma inherited_truthy s v :
  Object_prototype !! s = Some v -> truthy v = true.
Proof.
  intros H. apply lookup_list_to_map_In in H. simpl in H.
  repeat (destruct H as [H | H]; [injection H as <- <-; reflexivity |]).
  destruct H.
Qed.

(** The 31 day numerals get the ordinal suffix appended. *)
Lemma getBanglaOrdinal_numeral n :
  1 <= n <= 31 ->
  getBanglaOrdinal (bangla_numeral n)
  = VString (bangla_numeral n +:+ ordinal_suffix n).
Proof.
  intros [Hlo Hhi].
  do 32 (destruct n as [|n]; [first [lia | vm_compute; reflexivity] |]).
  lia.
Qed.

(** A string that is neither a day numeral nor the name of an inherited
    property comes back unchanged. *)
Lemma getBanglaOrdinal_fallback s :
  (forall n, 1 <= n <= 31 -> s <> bangla_numeral n) ->
  Object_prototype !! s = None ->
  getBanglaOrdinal s = VString s.
Proof.
  intros Hkey Hproto. unfold getBanglaOrdinal, get.
  destruct (BANGLA_ORDINALS !! s) as [v|] eqn:Hown.
  - apply BANGLA_ORDINALS_keys in Hown as (n & Hn & ->).
    exfalso. by apply (Hkey n).
  - rewrite Hproto. reflexivity.
Qed.

(** The name of an inherited property yields the inherited value. *)
Lemma getBanglaOrdinal_inherited s v :
  Object_prototype !! s = Some v -> getBanglaOrdinal s = v.
Proof.
  intros Hproto. unfold getBanglaOrdinal, get.
  destruct (BANGLA_ORDINALS !! s) as [o|] eqn:Hown.
  - apply BANGLA_ORDINALS_keys in Hown as (n & Hn & ->).
    rewrite numeral_not_inherited in Hproto by done. discriminate.
  - rewrite Hproto. unfold or_else.
    by rewrite (inherited_truthy _ _ Hproto).
Qed.

(** C9, at the input ['constructor']: the string is not a key of the
    table, yet [getBanglaOrdinal] does not give it back; the lookup finds
    the property that every object literal inherits and the function
    returns the built-in [Object] function, which is not a string. *)
Theorem getBanglaOrdinal_constructor :
  BANGLA_ORDINALS !! "constructor" = None /\
  getBanglaOrdinal "constructor" = VFunction "Object".
Proof. split; vm_compute; reflexivity. Qed.

(** The twelve month names are the keys of the season table, and the
    month of index [i] (from 0) has the season of index [i / 2]. *)
Lemma BANGLA_SEASONS_month i :
  i < 12 -> BANGLA_SEASONS !! nth i months "" = Some (season_of_index i).
Proof.
  intros Hi.
  do 12 (destruct i as [|i]; [vm_compute; reflexivity |]).
  lia.
Qed.

Lemma BANGLA_SEASONS_keys s v :
  BANGLA_SEASONS !! s = Some v ->
  exists i, i < 12 /\ s = nth i months "".
Proof.
  intros H. apply lookup_list_to_map_In in H. simpl in H.
  repeat (destruct H as [H | H]; [injection H as <- <-; find_index 0 12 |]).
  destruct H.
Qed.

Lemma month_not_inherited i :
  i < 12 -> Object_prototype !! nth i months "" = None.
Proof.
  intros Hi.
  do 12 (destruct i as [|i]; [vm_compute; reflexivity |]).
  lia.
Qed.

(** There are exactly six season names. *)
Lemma seasons_six : List.length seasons = 6 /\ NoDup seasons.
Proof.
  split; [reflexivity |].
  apply (bool_decide_unpack _). vm_compute. exact I.
Qed.

(** Each month maps to one of the six seasons, consecutive pairs of
    months to the same one. *)
Lemma getBanglaSeason_month i :
  i < 12 ->
  getBanglaSeason (nth i months "") = VString (season_of_index i) /\
  In (season_of_index i) seasons /\
  season_of_index (2 * (i / 2)) = season_of_index (2 * (i / 2) + 1).
Proof.
  intros Hi.
  do 12 (destruct i as [|i];
         [split; [vm_compute; reflexivity | split; [simpl; tauto | reflexivity]] |]).
  lia.
Qed.

(** A string that is neither a month name nor the name of an inherited
    property yields the empty string. *)
Lemma getBanglaSeason_fallback s :
  (forall i, i < 12 -> s <> nth i months "") ->
  Object_prototype !! s = None ->
  getBanglaSeason s = VString "".
Proof.
  intros Hkey Hproto. unfold getBanglaSeason, get.
  destruct (BANGLA_SEASONS !! s) as [v|] eqn:Hown.
  - apply BANGLA_SEASONS_keys in Hown as (i & Hi & ->).
    exfalso. by apply (Hkey i).
  - rewrite Hproto. reflexivity.
Qed.

Lemma getBanglaSeason_inherited s v :
  Object_prototype !! s = Some v -> getBanglaSeason s = v.
Proof.
  intros Hproto. unfold getBanglaSeason, get.
  destruct (BANGLA_SEASONS !! s) as [o|] eqn:Hown.
  - apply BANGLA_SEASONS_keys in Hown as (i & Hi & ->).
    rewrite month_not_inherited in Hproto by done. discriminate.
  - rewrite Hproto. unfold or_else.
    by rewrite (inherited_truthy _ _ Hproto).
Qed.

(** C10, at the input ['toString']: the string is not a month name, yet
    [getBanglaSeason] does not return the empty string; the lookup finds
    the inherited [toString] method and the function returns it. *)
Theorem getBanglaSeason_toString :
  BANGLA_SEASONS !! "toString" = None /\
  getBanglaSeason "toString" = VFunction "toString".
Proof. split; vm_compute; reflexivity. Qed.

(** ** index.js: postToBluesky and main *)

Ltac unfold_run :=
  unfold main, createBanglaDateImage, postToBluesky, publish,
    try_catch, bind, call, console, ret.

(** Case analysis on what the world answers, call after call. *)
Ltac world_cases :=
  repeat match goal with
    | |- context [match ?o with Returned _ => _ | Thrown _ => _ end] =>
        let E := fresh "Hcall" in destruct o as [?|?] eqn:E
    | |- context [if ?b then _ else _] =>
        let E := fresh "Hif" in destruct b eqn:E
    end.

Lemma handle_unset w :
  unset w "BLUESKY_HANDLE" -> unset w "BSKY_USERNAME" ->
  truthy (handle w) = false.
Proof.
  unfold unset, handle, env_get. by intros [-> | ->] [-> | ->].
Qed.

Lemma password_unset w :
  unset w "BLUESKY_PASSWORD" -> unset w "BSKY_APP_PASSWORD" ->
  truthy (password w) = false.
Proof.
  unfold unset, password, env_get. by intros [-> | ->] [-> | ->].
Qed.

(** C8: when the handle (from [BLUESKY_HANDLE], else [BSKY_USERNAME]) or
    the password (from [BLUESKY_PASSWORD], else [BSKY_APP_PASSWORD]) is
    missing from the environment, [postToBluesky] only writes its three
    console lines and returns [false]: no login, no file read, no blob
    upload, no facet detection and no post creation take place. *)
Theorem postToBluesky_credentials_missing w imagePath dateText info :
  (unset w "BLUESKY_HANDLE" /\ unset w "BSKY_USERNAME") \/
  (unset w "BLUESKY_PASSWORD" /\ unset w "BSKY_APP_PASSWORD") ->
  postToBluesky w imagePath dateText info
  = ([ Console Log "üîÑ Posting to Bluesky...";
       Console Warn "‚ö†Ô∏è  Bluesky credentials not found in environment variables";
       Console Log "Skipping Bluesky post..." ],
     Returned false)
  /\ count is_network (fst (postToBluesky w imagePath dateText info)) = 0
  /\ count is_login (fst (postToBluesky w imagePath dateText info)) = 0
  /\ count is_upload (fst (postToBluesky w imagePath dateText info)) = 0
  /\ count is_createPost (fst (postToBluesky w imagePath dateText info)) = 0.
Proof.
  intros Hmissing.
  assert (negb (truthy (handle w)) || negb (truthy (password w)) = true) as Hguard.
  { destruct Hmissing as [[H1 H2] | [H1 H2]].
    - by rewrite (handle_unset w H1 H2).
    - rewrite (password_unset w H1 H2). by destruct (truthy (handle w)). }
  unfold_run. rewrite Hguard. simpl. done.
Qed.

Lemma postToBluesky_credentials_missing_witness :
  ((unset Samples.no_credentials "BLUESKY_HANDLE"
    /\ unset Samples.no_credentials "BSKY_USERNAME") \/
   (unset Samples.no_credentials "BLUESKY_PASSWORD"
    /\ unset Samples.no_credentials "BSKY_APP_PASSWORD")) /\
  snd (postToBluesky Samples.no_credentials Samples.path Samples.dateText Samples.info)
  = Returned false.
Proof.
  assert ((unset Samples.no_credentials "BLUESKY_HANDLE"
           /\ unset Samples.no_credentials "BSKY_USERNAME") \/
          (unset Samples.no_credentials "BLUESKY_PASSWORD"
           /\ unset Samples.no_credentials "BSKY_APP_PASSWORD")) as H.
  { left. split; left; reflexivity. }
  split; [exact H |].
  destruct (postToBluesky_credentials_missing
              Samples.no_credentials Samples.path Samples.dateText Samples.info H)
    as [-> _].
  reflexivity.
Defined.

(** [postToBluesky] follows the rules of [run]: it never throws, and its
    trace and result are those of the rule the world selects. *)
Lemma postToBluesky_run w imagePath dateText info :
  run w imagePath dateText info
    (fst (postToBluesky w imagePath dateText info))
    (snd (postToBluesky w imagePath dateText info)).
Proof.
  unfold_run.
  destruct (negb (truthy (handle w)) || negb (truthy (password w))) eqn:Hguard.
  { simpl. by apply run_skipped. }
  destruct (login w (to_string (handle w)) (to_string (password w)))
    as [[]|e] eqn:Hlogin; simpl.
  2: { by apply run_login_failed. }
  destruct (readFileSync w imagePath) as [data|e] eqn:Hread; simpl.
  2: { by apply run_read_failed. }
  destruct (uploadBlob w data "image/png") as [blob|e] eqn:Hupload; simpl.
  2: { by apply run_upload_failed. }
  destruct (detectFacets w (postText dateText info)) as [fs|e] eqn:Hfacets; simpl.
  2: { by apply (run_facets_failed _ _ _ _ data blob). }
  destruct (post w (postRecord w dateText (postText dateText info) fs blob))
    as [uri|e] eqn:Hpost; simpl.
  2: { by apply (run_post_failed _ _ _ _ data blob fs). }
  by apply (run_posted _ _ _ _ data blob fs uri).
Qed.

Lemma postToBluesky_run_eq w imagePath dateText info t r :
  postToBluesky w imagePath dateText info = (t, r) ->
  run w imagePath dateText info t r.
Proof.
  intros H. pose proof (postToBluesky_run w imagePath dateText info) as Hrun.
  by rewrite H in Hrun.
Qed.

(** Rewrites the hypotheses about the world's answers into each other. *)
Ltac same_answers :=
  repeat match goal with
    | H : ?x = Returned _, H' : ?x = Returned _ |- _ =>
        rewrite H in H'; injection H' as ?; subst
    | H : ?x = Returned _, H' : ?x = Thrown _ |- _ =>
        rewrite H in H'; discriminate H'
    | H : ?x = Thrown _, H' : ?x = Thrown _ |- _ =>
        rewrite H in H'; injection H' as ?; subst
    end.

(** C1: in every run of the posting step there is at most one
    [uploadBlob] call and at most one post-creation call; a run that
    succeeds made exactly one upload (the single image), which completed
    before the exactly one post creation that follows it and whose blob is
    the one embedded; a post creation only ever happens after a completed
    login and a completed upload; and when the login or the upload fails,
    the function returns [false] without any post-creation call. *)
Theorem postToBluesky_one_upload_then_one_post w imagePath dateText info t r :
  postToBluesky w imagePath dateText info = (t, r) ->
  (count is_upload t <= 1 /\ count is_createPost t <= 1) /\
  (r = Returned true ->
     exists before data blob between record after,
       t = before ++ UploadBlob data "image/png" :: between
                  ++ CreatePost record :: after /\
       uploadBlob w data "image/png" = Returned blob /\
       images (embed record) = [ {| alt := altText dateText; image := blob |} ] /\
       count is_upload (before ++ between ++ after) = 0 /\
       count is_createPost (before ++ between ++ after) = 0) /\
  (count is_createPost t = 1 ->
     login w (to_string (handle w)) (to_string (password w)) = Returned tt /\
     exists data blob,
       readFileSync w imagePath = Returned data /\
       uploadBlob w data "image/png" = Returned blob /\
       count is_upload t = 1) /\
  (forall e,
     login w (to_string (handle w)) (to_string (password w)) = Thrown e ->
     r = Returned false /\ count is_upload t = 0 /\ count is_createPost t = 0) /\
  (forall data e,
     readFileSync w imagePath = Returned data ->
     uploadBlob w data "image/png" = Thrown e ->
     r = Returned false /\ count is_createPost t = 0).
Proof.
  intros Hrun. apply postToBluesky_run_eq in Hrun.
  destruct Hrun; (split; [split; cbn; lia |]).
  all: split; [intros Hr; try discriminate Hr |].
  7: { exists [ Console Log "üîÑ Posting to Bluesky...";
              Login (to_string (handle w)) (to_string (password w));
              Console Log "‚úÖ Logged in to Bluesky";
              ReadFile imagePath ],
         data, blob,
         [ Console Log "‚úÖ Image uploaded"; DetectFacets (postText dateText info) ],
         (postRecord w dateText (postText dateText info) fs blob),
         [ Console Log ("‚úÖ Posted to Bluesky: " +:+ uri) ].
       by repeat split. }
  all: split; [cbn; intros Hc; try discriminate Hc |].
  all: try (split; [assumption | exists data, blob; by repeat split]).
  all: split; [intros e' He' | intros data' e' Hd' He']; same_answers.
  all: by repeat split.
Qed.

(** A refused upload: one upload call, no post call, [false]. *)
Example upload_refused_no_post :
  let t := fst (postToBluesky Samples.upload_refused Samples.path
                  Samples.dateText Samples.info) in
  count is_upload t = 1 /\ count is_createPost t = 0 /\
  snd (postToBluesky Samples.upload_refused Samples.path
         Samples.dateText Samples.info) = Returned false.
Proof. repeat split. Qed.

Lemma postToBluesky_one_upload_then_one_post_witness :
  postToBluesky Samples.happy Samples.path Samples.dateText Samples.info
  = (fst (postToBluesky Samples.happy Samples.path Samples.dateText Samples.info),
     Returned true) /\
  count is_upload
    (fst (postToBluesky Samples.happy Samples.path Samples.dateText Samples.info)) <= 1 /\
  count is_createPost
    (fst (postToBluesky Samples.happy Samples.path Samples.dateText Samples.info)) <= 1.
Proof.
  assert (postToBluesky Samples.happy Samples.path Samples.dateText Samples.info
          = (fst (postToBluesky Samples.happy Samples.path Samples.dateText Samples.info),
             Returned true)) as H by reflexivity.
  split; [exact H |].
  exact (proj1 (postToBluesky_one_upload_then_one_post _ _ _ _ _ _ H)).
Defined.

Lemma count_app p (t1 t2 : list event) :
  count p (t1 ++ t2) = count p t1 + count p t2.
Proof. unfold count. by rewrite List.filter_app, length_app. Qed.

Lemma exit_status_no_exit t : count is_exit t = 0 -> exit_status t = 0%Z.
Proof.
  induction t as [|e t IH]; [done |].
  destruct e; cbn; try exact IH. discriminate.
Qed.

(** [postToBluesky] returns a boolean, whatever happens, and never ends
    the process. *)
Lemma postToBluesky_returns w imagePath dateText info :
  exists t b,
    postToBluesky w imagePath dateText info = (t, Returned b) /\
    count is_exit t = 0.
Proof.
  destruct (postToBluesky w imagePath dateText info) as [t r] eqn:Hpost.
  apply postToBluesky_run_eq in Hpost.
  destruct Hpost; eexists _, _; split; reflexivity.
Qed.

(** A failing core step is caught: its message and stack go to the error
    console and [false] is returned. *)
Lemma core_failure_caught w imagePath dateText info e :
  truthy (handle w) = true -> truthy (password w) = true ->
  core_failure w imagePath dateText info e ->
  exists t0,
    postToBluesky w imagePath dateText info = (t0 ++ caught e, Returned false) /\
    count is_createPost t0 <= 1.
Proof.
  intros Hh Hp Hfail.
  destruct (postToBluesky w imagePath dateText info) as [t r] eqn:Hpost.
  apply postToBluesky_run_eq in Hpost.
  destruct Hpost as [Hg|e' Hg|e' Hg|d' e' Hg|d' b' e' Hg|d' b' f' e' Hg|d' b' f' u' Hg];
    [by rewrite Hh, Hp in Hg | ..];
    destruct Hfail; same_answers;
    eexists; (split; [reflexivity | cbn; lia]).
Qed.

(** The run of [main] when the image was produced and posting is on. *)
Lemma main_with_posting w :
  existsSync w (outputDir w) = true \/ mkdirSync w (outputDir w) = Returned tt ->
  render w (outputPath w) (getBanglaDateInfo w) = Returned tt ->
  shouldPost w = true ->
  exists before,
    main w
    = (before
       ++ fst (postToBluesky w (outputPath w)
                 (captionDateText (getBanglaDateInfo w)) (getBanglaDateInfo w))
       ++ [Console Log (nl +:+ "‚ú® Done!")],
       Returned tt) /\
    count is_exit before = 0.
Proof.
  intros Hdir Hrender Hshould.
  destruct (postToBluesky_returns w (outputPath w)
              (captionDateText (getBanglaDateInfo w)) (getBanglaDateInfo w))
    as (t & b & Hpost & _).
  unfold main, createBanglaDateImage, try_catch, bind, call, console, ret.
  cbv zeta. rewrite Hrender, Hshould. simpl. rewrite Hpost. simpl.
  destruct (existsSync w (outputDir w)) eqn:Hex; simpl.
  - rewrite app_nil_r.
    eexists (_ :: _ :: _ :: _ :: _ :: _ :: []). split; reflexivity.
  - destruct Hdir as [Hdir | Hdir]; [discriminate |]. rewrite Hdir. simpl.
    rewrite app_nil_r.
    eexists (_ :: _ :: _ :: _ :: _ :: _ :: _ :: []). split; reflexivity.
Qed.

(** What [main] does once the output directory is there. *)
Ltac image_cases w Hpost Hdone :=
  let e := fresh "e" in
  destruct (render w (outputPath w) (getBanglaDateInfo w)) as [[]|e] eqn:?;
  [ destruct (shouldPost w) eqn:?; simpl;
    [ rewrite Hpost; simpl; rewrite app_nil_r, Hdone | ];
    intros Hne; by destruct Hne
  | simpl; intros _; exists e;
    split; [by right | split; [simpl; tauto | reflexivity]] ].

(** The process ends with a non-zero status only through the handler of
    [main], that is when creating the output directory or producing the
    image throws; the message is then on the error console and the status
    is 1. *)
Lemma main_exit_nonzero w :
  exit_status (fst (main w)) <> 0%Z ->
  exists e,
    ((existsSync w (outputDir w) = false /\ mkdirSync w (outputDir w) = Thrown e) \/
     render w (outputPath w) (getBanglaDateInfo w) = Thrown e) /\
    In (Console Err ("‚ùå Error: " +:+ message e)) (fst (main w)) /\
    exit_status (fst (main w)) = 1%Z.
Proof.
  destruct (postToBluesky_returns w (outputPath w)
              (captionDateText (getBanglaDateInfo w)) (getBanglaDateInfo w))
    as (t & b & Hpost & Hquiet).
  assert (exit_status (t ++ [Console Log (nl +:+ "‚ú® Done!")]) = 0%Z) as Hdone.
  { apply exit_status_no_exit. rewrite count_app, Hquiet. reflexivity. }
  unfold main, createBanglaDateImage, try_catch, bind, call, console, ret.
  cbv zeta.
  destruct (existsSync w (outputDir w)) eqn:Hex.
  - image_cases w Hpost Hdone.
  - destruct (mkdirSync w (outputDir w)) as [[]|e] eqn:Hmk.
    + image_cases w Hpost Hdone.
    + simpl. intros _. exists e.
      split; [by left | split; [simpl; tauto | reflexivity]].
Qed.

(** C3, as the code has it: when a core step (login, blob upload, post
    creation) fails in a run that reached the posting step,
    [postToBluesky] catches the error, writes its message and its stack to
    the error console and returns [false]; [main] does not look at that
    value, runs to its end and the process ends with status 0.  A
    non-zero status (1, with the message on the error console) comes only
    from an exception that reaches [main]'s own handler, thrown while the
    output directory or the image is produced. *)
Theorem posting_failure_is_caught_and_logged w :
  (forall e,
     existsSync w (outputDir w) = true \/ mkdirSync w (outputDir w) = Returned tt ->
     render w (outputPath w) (getBanglaDateInfo w) = Returned tt ->
     shouldPost w = true ->
     truthy (handle w) = true -> truthy (password w) = true ->
     core_failure w (outputPath w)
       (captionDateText (getBanglaDateInfo w)) (getBanglaDateInfo w) e ->
     snd (postToBluesky w (outputPath w)
            (captionDateText (getBanglaDateInfo w)) (getBanglaDateInfo w))
     = Returned false /\
     (exists t1 t2, fst (main w) = t1 ++ caught e ++ t2) /\
     snd (main w) = Returned tt /\
     count is_exit (fst (main w)) = 0 /\
     exit_status (fst (main w)) = 0%Z) /\
  (exit_status (fst (main w)) <> 0%Z ->
   exists e,
     ((existsSync w (outputDir w) = false /\ mkdirSync w (outputDir w) = Thrown e) \/
      render w (outputPath w) (getBanglaDateInfo w) = Thrown e) /\
     In (Console Err ("‚ùå Error: " +:+ message e)) (fst (main w)) /\
     exit_status (fst (main w)) = 1%Z).
Proof.
  split; [| apply main_exit_nonzero].
  intros e Hdir Hrender Hshould Hh Hp Hfail.
  destruct (core_failure_caught _ _ _ _ _ Hh Hp Hfail) as (t0 & Hpost & _).
  destruct (main_with_posting w Hdir Hrender Hshould) as (before & Hmain & Hquiet).
  rewrite Hpost in Hmain. simpl in Hmain.
  rewrite Hpost, Hmain. simpl.
  assert (count is_exit (before ++ (t0 ++ caught e) ++ [Console Log (nl +:+ "‚ú® Done!")]) = 0)
    as Hnone.
  { destruct (postToBluesky_returns w (outputPath w)
                (captionDateText (getBanglaDateInfo w)) (getBanglaDateInfo w))
      as (t & b & Hpost' & Hquiet').
    rewrite Hpost in Hpost'. injection Hpost' as <- _.
    rewrite !count_app in *. rewrite Hquiet. cbn. lia. }
  split; [reflexivity |].
  split; [exists (before ++ t0), [Console Log (nl +:+ "‚ú® Done!")];
          by rewrite <- !app_assoc |].
  split; [reflexivity |].
  split; [exact Hnone | by apply exit_status_no_exit].
Qed.

Lemma posting_failure_is_caught_and_logged_witness :
  core_failure Samples.login_refused (outputPath Samples.login_refused)
    (captionDateText (getBanglaDateInfo Samples.login_refused))
    (getBanglaDateInfo Samples.login_refused) Samples.refused /\
  snd (postToBluesky Samples.login_refused (outputPath Samples.login_refused)
         (captionDateText (getBanglaDateInfo Samples.login_refused))
         (getBanglaDateInfo Samples.login_refused))
  = Returned false.
Proof.
  assert (core_failure Samples.login_refused (outputPath Samples.login_refused)
            (captionDateText (getBanglaDateInfo Samples.login_refused))
            (getBanglaDateInfo Samples.login_refused) Samples.refused) as Hfail.
  { apply login_fails. reflexivity. }
  split; [exact Hfail |].
  refine (proj1 (proj1 (posting_failure_is_caught_and_logged Samples.login_refused)
                   Samples.refused _ _ _ _ _ Hfail)).
  - left. reflexivity.
  - reflexivity.
  - reflexivity.
  - reflexivity.
  - reflexivity.
Defined.

(** C3 as stated does not hold: the login is refused, the run goes on to
    its end, [process.exit] is never called and the status is 0. *)
Lemma refused_login_exits_with_status_zero :
  core_failure Samples.login_refused (outputPath Samples.login_refused)
    (captionDateText (getBanglaDateInfo Samples.login_refused))
    (getBanglaDateInfo Samples.login_refused) Samples.refused /\
  snd (main Samples.login_refused) = Returned tt /\
  count is_exit (fst (main Samples.login_refused)) = 0 /\
  exit_status (fst (main Samples.login_refused)) = 0%Z.
Proof.
  split; [apply login_fails; reflexivity |].
  repeat split; vm_compute; reflexivity.
Qed.

(** ** The image: what is uploaded and what is embedded *)

(** Once logged in, the blob handed to [uploadBlob] is the file, byte for
    byte. *)
Lemma file_is_uploaded_as_read w imagePath dateText info data :
  truthy (handle w) = true -> truthy (password w) = true ->
  login w (to_string (handle w)) (to_string (password w)) = Returned tt ->
  readFileSync w imagePath = Returned data ->
  In (UploadBlob data "image/png") (fst (postToBluesky w imagePath dateText info)).
Proof.
  intros Hh Hp Hlogin Hread.
  destruct (postToBluesky w imagePath dateText info) as [t r] eqn:Hpost.
  apply postToBluesky_run_eq in Hpost.
  destruct Hpost as [Hg|e' Hg|e' Hg|d' e' Hg|d' b' e' Hg|d' b' f' e' Hg|d' b' f' u' Hg];
    [by rewrite Hh, Hp in Hg | ..]; same_answers; simpl; tauto.
Qed.

(** Every upload in the trace carries the bytes read from the image file,
    tagged as PNG. *)
Lemma uploads_are_the_file w imagePath dateText info t r data encoding :
  postToBluesky w imagePath dateText info = (t, r) ->
  In (UploadBlob data encoding) t ->
  readFileSync w imagePath = Returned data /\ encoding = "image/png".
Proof.
  intros Hpost Hin. apply postToBluesky_run_eq in Hpost.
  destruct Hpost; simpl in Hin;
    repeat (destruct Hin as [Hin | Hin]; [try discriminate Hin |]);
    try contradiction; by injection Hin as <- <-.
Qed.

(** The quality ladder only ever answers with bytes within the ceiling. *)
Lemma try_ladder_within reencode image ladder byteCeiling out q :
  Compressor.try_ladder reencode image ladder byteCeiling = Some (out, q) ->
  List.length out <= byteCeiling /\ In q ladder /\ out = reencode image q.
Proof.
  induction ladder as [|q' ladder IH]; simpl; [discriminate |].
  destruct (Nat.leb_spec (List.length (reencode image q')) byteCeiling) as [Hle | Hgt].
  - intros [= <- <-]. auto.
  - intros H. destruct (IH H) as (? & ? & ?). auto.
Qed.

Lemma compress_from_within reencode downscale n wasResized image byteCeiling c :
  Compressor.compress_from reencode downscale n wasResized image byteCeiling = inr c ->
  List.length (Compressor.bytes c) <= byteCeiling.
Proof.
  revert wasResized image.
  induction n as [|n IH]; intros wasResized image;
    cbn [Compressor.compress_from];
    destruct (Compressor.try_ladder reencode image Compressor.qualityLadder byteCeiling)
      as [[out q]|] eqn:Hladder.
  - intros [= <-]. simpl. by apply try_ladder_within in Hladder as [? _].
  - discriminate.
  - intros [= <-]. simpl. by apply try_ladder_within in Hladder as [? _].
  - apply IH.
Qed.

(** C2, as the code has it: [compress] (the design's compressor) returns
    bytes within the ceiling or fails with [CompressionExhausted]; the
    Bangla-date posting step does not compress: whatever it passes to
    [uploadBlob] is the content of the image file as read, so that blob is
    within a ceiling exactly when the file is. *)
Theorem compress_within_ceiling_and_upload_unchanged :
  (forall reencode downscale maxResizes image byteCeiling,
     (exists c,
        Compressor.compress reencode downscale maxResizes image byteCeiling = inr c /\
        List.length (Compressor.bytes c) <= byteCeiling) \/
     Compressor.compress reencode downscale maxResizes image byteCeiling
     = inl Compressor.CompressionExhausted) /\
  (forall w imagePath dateText info t r data encoding,
     postToBluesky w imagePath dateText info = (t, r) ->
     In (UploadBlob data encoding) t ->
     readFileSync w imagePath = Returned data /\ encoding = "image/png").
Proof.
  split.
  - intros reencode downscale maxResizes image byteCeiling.
    destruct (Compressor.compress reencode downscale maxResizes image byteCeiling)
      as [[]|c] eqn:Hc; [by right | left].
    exists c. split; [reflexivity |].
    by apply compress_from_within in Hc.
  - apply uploads_are_the_file.
Qed.

Lemma compress_within_ceiling_and_upload_unchanged_witness :
  postToBluesky Samples.happy Samples.path Samples.dateText Samples.info
  = (fst (postToBluesky Samples.happy Samples.path Samples.dateText Samples.info),
     Returned true) /\
  readFileSync Samples.happy Samples.path = Returned Samples.png.
Proof.
  assert (postToBluesky Samples.happy Samples.path Samples.dateText Samples.info
          = (fst (postToBluesky Samples.happy Samples.path Samples.dateText Samples.info),
             Returned true)) as H by reflexivity.
  split; [exact H |].
  refine (proj1 (proj2 compress_within_ceiling_and_upload_unchanged
                   Samples.happy Samples.path Samples.dateText Samples.info
                   _ _ Samples.png "image/png" H _)).
  do 4 right. left. reflexivity.
Defined.

(** C2 as stated does not hold: a file of 1,000,001 bytes is handed to
    [uploadBlob] as it is, and the run goes on to create the post. *)
Lemma oversized_file_is_uploaded :
  (1000000 < N.of_nat (List.length Samples.oversized_file))%N /\
  In (UploadBlob Samples.oversized_file "image/png")
     (fst (postToBluesky Samples.oversized Samples.path Samples.dateText Samples.info)) /\
  snd (postToBluesky Samples.oversized Samples.path Samples.dateText Samples.info)
  = Returned true.
Proof.
  split; [vm_compute; reflexivity |].
  split; [by apply file_is_uploaded_as_read | reflexivity].
Qed.

Lemma pair_up_length imgs alts :
  List.length imgs = List.length alts ->
  List.length (Assembler.pair_up imgs alts) = List.length imgs /\
  List.map Assembler.compressedImage (Assembler.pair_up imgs alts) = imgs /\
  List.map Assembler.altText (Assembler.pair_up imgs alts) = alts.
Proof.
  revert alts. induction imgs as [|i imgs IH]; intros [|a alts] Hlen;
    simpl in *; try discriminate; [done |].
  injection Hlen as Hlen. destruct (IH alts Hlen) as (-> & -> & ->). done.
Qed.

(** Every post record that is created embeds exactly one image: the blob
    that the upload returned, with the alt text of the date. *)
Lemma created_post_embeds_one_image w imagePath dateText info t r record :
  postToBluesky w imagePath dateText info = (t, r) ->
  In (CreatePost record) t ->
  exists data blob,
    readFileSync w imagePath = Returned data /\
    uploadBlob w data "image/png" = Returned blob /\
    type (embed record) = "app.bsky.embed.images" /\
    images (embed record) = [ {| alt := altText dateText; image := blob |} ].
Proof.
  intros Hpost Hin. apply postToBluesky_run_eq in Hpost.
  destruct Hpost; simpl in Hin;
    repeat (destruct Hin as [Hin | Hin]; [try discriminate Hin |]);
    try contradiction; injection Hin as <-; by exists data, blob.
Qed.

(** C5: a payload that [assemble] returns holds between 1 and
    [maxImagesPerPost] images, each paired with its alt text; an empty
    image list and a list longer than the maximum are rejected with
    [TooManyImages]; and the embed of every post that the Bangla-date
    script creates holds exactly one image, paired with its alt text. *)
Theorem assembled_post_image_count :
  (forall maxImagesPerPost timeNow imgs altTexts caption payload,
     Assembler.assemble maxImagesPerPost timeNow imgs altTexts caption = inr payload ->
     1 <= List.length (Assembler.images payload) <= maxImagesPerPost /\
     List.map Assembler.compressedImage (Assembler.images payload) = imgs /\
     List.map Assembler.altText (Assembler.images payload) = altTexts) /\
  (forall maxImagesPerPost timeNow altTexts caption,
     Assembler.assemble maxImagesPerPost timeNow [] altTexts caption
     = inl Assembler.TooManyImages) /\
  (forall maxImagesPerPost timeNow imgs altTexts caption,
     maxImagesPerPost < List.length imgs ->
     Assembler.assemble maxImagesPerPost timeNow imgs altTexts caption
     = inl Assembler.TooManyImages) /\
  (forall w imagePath dateText info t r record,
     postToBluesky w imagePath dateText info = (t, r) ->
     In (CreatePost record) t ->
     List.length (images (embed record)) = 1 /\
     exists blob, images (embed record)
                  = [ {| alt := altText dateText; image := blob |} ]).
Proof.
  split; [| split; [| split]].
  - intros maxImagesPerPost timeNow imgs altTexts caption payload.
    unfold Assembler.assemble.
    destruct (Nat.eqb_spec (List.length imgs) 0) as [Hzero | Hpos]; [discriminate |].
    destruct (Nat.ltb_spec maxImagesPerPost (List.length imgs)) as [Hmany | Hfew];
      [discriminate |].
    destruct (Nat.eqb_spec (List.length imgs) (List.length altTexts)) as [Hsame | Hdiff];
      [| discriminate].
    simpl. intros [= <-]. simpl.
    destruct (pair_up_length imgs altTexts Hsame) as (-> & -> & ->).
    repeat split; lia.
  - reflexivity.
  - intros maxImagesPerPost timeNow imgs altTexts caption Hmany.
    unfold Assembler.assemble.
    apply Nat.ltb_lt in Hmany. rewrite Hmany.
    by rewrite orb_true_r.
  - intros w imagePath dateText info t r record Hpost Hin.
    destruct (created_post_embeds_one_image _ _ _ _ _ _ _ Hpost Hin)
      as (data & blob & _ & _ & _ & Himages).
    rewrite Himages. split; [reflexivity | by exists blob].
Qed.

Lemma assembled_post_image_count_witness :
  postToBluesky Samples.happy Samples.path Samples.dateText Samples.info
  = (fst (postToBluesky Samples.happy Samples.path Samples.dateText Samples.info),
     Returned true) /\
  List.length
    (images (embed (postRecord Samples.happy Samples.dateText
                      (postText Samples.dateText Samples.info)
                      (RichText.hashtag_facets (postText Samples.dateText Samples.info))
                      {| cid := "bafkreihdwdcefgh" |}))) = 1.
Proof.
  assert (postToBluesky Samples.happy Samples.path Samples.dateText Samples.info
          = (fst (postToBluesky Samples.happy Samples.path Samples.dateText Samples.info),
             Returned true)) as H by reflexivity.
  split; [exact H |].
  refine (proj1 (proj2 (proj2 (proj2 assembled_post_image_count))
                   Samples.happy Samples.path Samples.dateText Samples.info
                   _ _ _ H _)).
  do 7 right. left. reflexivity.
Defined.

(** ** The length of the post text *)

Lemma js_length_app a b : JS.length (a +:+ b) = JS.length a + JS.length b.
Proof. induction a as [|c a IH]; simpl; [done | rewrite IH; lia]. Qed.

Lemma char_count_le_length s : char_count s <= JS.length s.
Proof.
  induction s as [|c s IH]; simpl; [done |].
  unfold code_points, utf16_units.
  repeat match goal with |- context [?a <? ?b] => destruct (a <? b) end; lia.
Qed.

(** The fixed text of the caption line takes 28 UTF-16 units. *)
Lemma captionDateText_length info :
  JS.length (captionDateText info)
  = JS.length (to_string (date info)) + JS.length (month info)
    + JS.length (year info) + 28.
Proof.
  unfold captionDateText. rewrite !js_length_app.
  change (JS.length " ") with 1. change (JS.length ", ") with 2.
  change (JS.length " ‡¶¨‡¶ô‡ßç‡¶ó‡¶æ‡¶¨‡ßç‡¶¶") with 25. lia.
Qed.

(** The fixed text of the post, hashtags included, takes 170 UTF-16
    units. *)
Lemma postText_length dateText info :
  JS.length (postText dateText info)
  = JS.length (weekday info) + JS.length dateText
    + JS.length (to_string (season info)) + 170.
Proof.
  unfold postText. rewrite !js_length_app.
  change (JS.length "‡¶Ü‡¶ú ‡¶∞‡ßã‡¶ú ") with 17. change (JS.length ",") with 1.
  change (JS.length nl) with 1. change (JS.length "‡¶è‡¶¨‡¶Ç ") with 10.
  change (JS.length "‡¶ï‡¶æ‡¶≤") with 9. change (JS.length hashtags) with 129. lia.
Qed.

Lemma ordinal_length n :
  1 <= n <= 31 ->
  JS.length (to_string (getBanglaOrdinal (bangla_numeral n))) <= 4.
Proof.
  intros [Hlo Hhi].
  do 32 (destruct n as [|n]; [first [lia | vm_compute; lia] |]).
  lia.
Qed.

Lemma month_and_season_length i :
  i < 12 ->
  JS.length (nth i months "")
  + JS.length (to_string (getBanglaSeason (nth i months ""))) <= 15.
Proof.
  intros Hi.
  do 12 (destruct i as [|i]; [vm_compute; lia |]).
  lia.
Qed.

(** C4: for each of the 31 days, each of the 12 months (with its season)
    and every weekday and year that together take at most 83 UTF-16
    units, the post text takes at most 300 UTF-16 units, hence at most
    300 characters; and the text of every post record that is created is
    that post text. *)
Theorem postText_within_caption_ceiling w n i :
  1 <= n <= 31 -> i < 12 ->
  banglaDay (calendar w) = bangla_numeral n ->
  banglaMonth (calendar w) = nth i months "" ->
  JS.length (banglaWeekday (calendar w)) + JS.length (banglaYear (calendar w)) <= 83 ->
  let info := getBanglaDateInfo w in
  JS.length (postText (captionDateText info) info) <= 300 /\
  char_count (postText (captionDateText info) info) <= 300 /\
  (forall imagePath t r record,
     postToBluesky w imagePath (captionDateText info) info = (t, r) ->
     In (CreatePost record) t ->
     text record = postText (captionDateText info) info /\
     JS.length (text record) <= 300).
Proof.
  intros Hn Hi Hday Hmonth Hrest info.
  assert (JS.length (postText (captionDateText info) info) <= 300) as Hlen.
  { rewrite postText_length, captionDateText_length.
    unfold info, getBanglaDateInfo. cbn [date month year weekday season].
    rewrite Hday, Hmonth.
    pose proof (ordinal_length n Hn). pose proof (month_and_season_length i Hi).
    lia. }
  split; [exact Hlen |].
  split; [etrans; [apply char_count_le_length | exact Hlen] |].
  intros imagePath t r record Hpost Hin.
  apply postToBluesky_run_eq in Hpost.
  assert (text record = postText (captionDateText info) info) as ->; [| done].
  destruct Hpost; simpl in Hin;
    repeat (destruct Hin as [Hin | Hin]; [try discriminate Hin |]);
    try contradiction; by injection Hin as <-.
Qed.

Lemma postText_within_caption_ceiling_witness :
  JS.length (banglaWeekday (calendar Samples.happy))
  + JS.length (banglaYear (calendar Samples.happy)) <= 83 /\
  JS.length (postText (captionDateText (getBanglaDateInfo Samples.happy))
               (getBanglaDateInfo Samples.happy)) <= 300.
Proof.
  assert (JS.length (banglaWeekday (calendar Samples.happy))
          + JS.length (banglaYear (calendar Samples.happy)) <= 83) as H.
  { vm_compute. lia. }
  split; [exact H |].
  refine (proj1 (postText_within_caption_ceiling Samples.happy 23 6 _ _ _ _ H)).
  - lia.
  - lia.
  - reflexivity.
  - reflexivity.
Defined.

(** ** CaptionBudgetBuilder *)

Import Caption.

Lemma char_count_app a b : char_count (a +:+ b) = char_count a + char_count b.
Proof. induction a as [|c a IH]; simpl; [done | rewrite IH; lia]. Qed.

Lemma append_cons x a b : String x a +:+ b = String x (a +:+ b).
Proof. reflexivity. Qed.

Lemma append_assoc a b c : (a +:+ b) +:+ c = a +:+ (b +:+ c).
Proof. induction a as [|x a IH]; [done | by rewrite !append_cons, IH]. Qed.

Lemma compose_app before after :
  compose (before ++ after) = compose before +:+ compose after.
Proof.
  induction before as [|s before IH]; [done |].
  cbn [compose app]. rewrite IH. symmetry. apply append_assoc.
Qed.

(** Taking a segment out never makes the caption longer. *)
Lemma compose_shorter before s after :
  char_count (compose (before ++ after))
  <= char_count (compose (before ++ s :: after)).
Proof.
  rewrite !compose_app. simpl. rewrite !char_count_app. lia.
Qed.

(** The highest priority is the priority of some remaining [Optional]
    segment, and no remaining [Optional] segment has a higher one. *)
Lemma highest_priority_Some segs p :
  highest_priority segs = Some p ->
  (exists s, In s segs /\ is_optional s = true /\ priority s = p) /\
  (forall s', In s' segs -> is_optional s' = true -> (priority s' <= p)%Z).
Proof.
  revert p. induction segs as [|s segs IH]; intros p; simpl; [discriminate |].
  destruct (is_optional s) eqn:Hs.
  - destruct (highest_priority segs) as [q|] eqn:Hq.
    + intros [= <-]. destruct (IH q eq_refl) as [(s0 & Hin & Hopt & Hprio) Hmax].
      split.
      * destruct (Z.max_spec (priority s) q) as [[_ ->] | [_ ->]].
        -- exists s0. auto.
        -- exists s. auto.
      * intros s' [<- | Hin'] Hopt'; [lia |].
        specialize (Hmax s' Hin' Hopt'). lia.
    + intros [= <-]. split; [exists s; auto |].
      intros s' [<- | Hin'] Hopt'; [lia |].
      exfalso. clear IH. induction segs as [|s1 segs IH1]; [done |].
      simpl in Hq. destruct Hin' as [<- | Hin'].
      * rewrite Hopt' in Hq. by destruct (highest_priority segs).
      * destruct (is_optional s1); [by destruct (highest_priority segs) | auto].
  - intros Hp. destruct (IH p Hp) as [(s0 & Hin & Hopt & Hprio) Hmax].
    split; [exists s0; auto |].
    intros s' [<- | Hin'] Hopt'; [congruence | auto].
Qed.

(** No highest priority: nothing [Optional] is left. *)
Lemma highest_priority_None segs :
  highest_priority segs = None -> List.filter is_required segs = segs.
Proof.
  induction segs as [|s segs IH]; simpl; [done |].
  unfold is_required at 1.
  destruct (is_optional s); [by destruct (highest_priority segs) |].
  intros H. simpl. by rewrite IH.
Qed.

(** [remove_optional] takes out exactly one segment, an [Optional] one of
    the given priority, and leaves the others in place. *)
Lemma remove_optional_split segs p :
  (exists s, In s segs /\ is_optional s = true /\ priority s = p) ->
  exists before s after,
    segs = before ++ s :: after /\
    remove_optional p segs = before ++ after /\
    is_optional s = true /\ priority s = p.
Proof.
  induction segs as [|s segs IH]; intros (s0 & Hin & Hopt & Hprio); [destruct Hin |].
  simpl. destruct (is_optional s && (priority s =? p)%Z) eqn:Hhere.
  - apply andb_prop in Hhere as [Hs Hp]. apply Z.eqb_eq in Hp.
    by exists [], s, segs.
  - destruct Hin as [<- | Hin].
    + rewrite Hopt, Hprio, Z.eqb_refl in Hhere. discriminate.
    + destruct IH as (before & s1 & after & -> & -> & Hopt1 & Hprio1);
        [by exists s0 |].
      by exists (s :: before), s1, after.
Qed.

Lemma is_optional_kind s : is_optional s = true <-> kind s = Optional.
Proof. unfold is_optional. destruct (kind s); split; congruence. Qed.

(** One round of [drop_one] on a caption over the ceiling is one step of
    the design's removal rule. *)
Lemma drop_one_step ceiling segs segs' :
  fits ceiling segs = false ->
  drop_one segs = Some segs' ->
  drop_step ceiling segs segs'.
Proof.
  unfold drop_one. intros Hover.
  destruct (highest_priority segs) as [p|] eqn:Hp; [| discriminate].
  intros [= <-]. apply highest_priority_Some in Hp as [Hsome Hmax].
  destruct (remove_optional_split segs p Hsome)
    as (before & s & after & -> & -> & Hopt & Hprio).
  constructor; [exact Hover | by apply is_optional_kind |].
  intros s' Hin Hkind. rewrite Hprio. apply Hmax; [exact Hin |].
  by apply is_optional_kind.
Qed.

Lemma drop_step_shorter ceiling segs segs' :
  drop_step ceiling segs segs' -> List.length segs = S (List.length segs').
Proof. intros []. rewrite !length_app. simpl. lia. Qed.

Lemma drop_step_keeps_required ceiling segs segs' :
  drop_step ceiling segs segs' ->
  List.filter is_required segs' = List.filter is_required segs.
Proof.
  intros [before s after _ Hkind _]. rewrite !List.filter_app.
  cbn [List.filter].
  assert (is_required s = false) as ->; [| done].
  unfold is_required. apply is_optional_kind in Hkind. by rewrite Hkind.
Qed.

Lemma drop_step_sublist ceiling segs segs' :
  drop_step ceiling segs segs' -> sublist segs' segs.
Proof.
  intros []. apply sublist_app; [done |]. by apply sublist_cons_r; left.
Qed.

Lemma drops_keeps_required ceiling segs final :
  drops ceiling segs final ->
  List.filter is_required final = List.filter is_required segs.
Proof.
  induction 1 as [|segs segs' segs'' Hstep _ IH]; [done |].
  rewrite IH. by eapply drop_step_keeps_required.
Qed.

Lemma drops_sublist ceiling segs final :
  drops ceiling segs final -> sublist final segs.
Proof.
  induction 1 as [|segs segs' segs'' Hstep _ IH]; [done |].
  etrans; [exact IH | by eapply drop_step_sublist].
Qed.

(** [shrink] only ever performs the design's removal steps. *)
Lemma shrink_drops rounds ceiling segs :
  drops ceiling segs (shrink rounds ceiling segs).
Proof.
  revert segs. induction rounds as [|rounds IH]; intros segs; simpl;
    destruct (fits ceiling segs) eqn:Hfits; try apply drops_refl.
  destruct (drop_one segs) as [segs'|] eqn:Hdrop; [| apply drops_refl].
  eapply drops_step; [by apply drop_one_step | apply IH].
Qed.

(** With as many rounds as there are segments, [shrink] stops only when
    the caption fits or nothing [Optional] is left. *)
Lemma shrink_stops rounds ceiling segs :
  List.length segs <= rounds ->
  fits ceiling (shrink rounds ceiling segs) = true \/
  highest_priority (shrink rounds ceiling segs) = None.
Proof.
  revert segs. induction rounds as [|rounds IH]; intros segs Hlen; simpl;
    destruct (fits ceiling segs) eqn:Hfits; auto.
  - destruct segs; [by right | simpl in Hlen; lia].
  - destruct (drop_one segs) as [segs'|] eqn:Hdrop.
    + apply IH. apply drop_one_step with (ceiling := ceiling) in Hdrop; [| done].
      apply drop_step_shorter in Hdrop. lia.
    + right. unfold drop_one in Hdrop.
      by destruct (highest_priority segs).
Qed.

(** C6: when the [Required] segments alone fit within the ceiling,
    [build] returns a caption within the ceiling; its text is the
    composition of what is left after repeatedly removing, whole, the
    remaining [Optional] segment of highest priority value from a caption
    that is still too long; what is left keeps the original order and
    every [Required] segment; and [build] fails with [CaptionTooLong] only
    if the [Required]-only composition exceeds the ceiling. *)
Theorem build_drops_optional_segments_by_priority segments ceiling :
  (char_count (compose (List.filter is_required segments)) <= ceiling ->
   exists final,
     build segments ceiling
     = inr {| text := compose final; hashtagSpans := spans_from 0 final |} /\
     char_count (compose final) <= ceiling /\
     drops ceiling segments final /\
     sublist final segments /\
     List.filter is_required final = List.filter is_required segments) /\
  (build segments ceiling = inl CaptionTooLong ->
   ceiling < char_count (compose (List.filter is_required segments))).
Proof.
  pose proof (shrink_drops (List.length segments) ceiling segments) as Hdrops.
  pose proof (drops_keeps_required _ _ _ Hdrops) as Hreq.
  assert (fits ceiling (shrink (List.length segments) ceiling segments) = false ->
          ceiling < char_count (compose (List.filter is_required segments))) as Hfail.
  { intros Hover.
    destruct (shrink_stops (List.length segments) ceiling segments) as [Hfits | Hnone];
      [done | congruence |].
    apply highest_priority_None in Hnone. rewrite <- Hreq, Hnone.
    unfold fits in Hover. by apply Nat.leb_gt in Hover. }
  unfold build.
  destruct (fits ceiling (shrink (List.length segments) ceiling segments)) eqn:Hfits.
  - split; [| discriminate]. intros _.
    exists (shrink (List.length segments) ceiling segments).
    repeat split; try done.
    + unfold fits in Hfits. by apply Nat.leb_le in Hfits.
    + by eapply drops_sublist.
  - split; [| intros _; by apply Hfail].
    intros Hreq_fits. specialize (Hfail eq_refl). lia.
Qed.

Lemma build_drops_optional_segments_by_priority_witness :
  char_count (compose (List.filter is_required Samples.wallpaper)) <= 20 /\
  exists final,
    build Samples.wallpaper 20
    = inr {| text := compose final; hashtagSpans := spans_from 0 final |} /\
    char_count (compose final) <= 20 /\
    drops 20 Samples.wallpaper final /\
    sublist final Samples.wallpaper /\
    List.filter is_required final = List.filter is_required Samples.wallpaper.
Proof.
  assert (char_count (compose (List.filter is_required Samples.wallpaper)) <= 20) as H.
  { vm_compute. lia. }
  split; [exact H |].
  exact (proj1 (build_drops_optional_segments_by_priority Samples.wallpaper 20) H).
Defined.

(** The scenario of the design document: both optional segments go, the
    region note first, and the title is what remains. *)
Example build_wallpaper :
  build Samples.wallpaper 20
  = inr {| text := "Today's wallpaper"; hashtagSpans := [] |}.
Proof. reflexivity. Qed.

(** ** Hashtag spans *)

Lemma byte_length_app a b :
  String.length (a +:+ b) = String.length a + String.length b.
Proof.
  induction a as [|x a IH]; [done |].
  rewrite append_cons. simpl. by rewrite IH.
Qed.

(** A range that lies within [b] reads the same in [b +:+ c]. *)
Lemma substring_app_l k n b c :
  k + n <= String.length b ->
  String.substring k n (b +:+ c) = String.substring k n b.
Proof.
  revert k n. induction b as [|x b IH]; intros k n Hle; simpl in Hle.
  - assert (k = 0) as -> by lia. assert (n = 0) as -> by lia.
    by destruct c.
  - rewrite append_cons. destruct k as [|k]; simpl.
    + destruct n as [|n]; [done |]. f_equal. apply IH. lia.
    + apply IH. lia.
Qed.

(** Skipping [a] in [a +:+ b] reads [b]. *)
Lemma substring_app_r a k n b :
  String.substring (String.length a + k) n (a +:+ b) = String.substring k n b.
Proof.
  induction a as [|x a IH]; [done |].
  rewrite append_cons. simpl. exact IH.
Qed.

Lemma word_run_le s : word_run s <= String.length s.
Proof.
  induction s as [|c s IH]; simpl; [done |].
  destruct (is_word_byte c); lia.
Qed.

(** The run of word characters read off the front of [s] is a token made
    of word characters only. *)
Lemma word_run_prefix s :
  String.length (String.substring 0 (word_run s) s) = word_run s /\
  word_run (String.substring 0 (word_run s) s) = word_run s.
Proof.
  induction s as [|c s [IHlen IHrun]]; simpl; [done |].
  destruct (is_word_byte c) eqn:Hc; simpl; [| done].
  rewrite Hc, IHlen, IHrun. done.
Qed.

Lemma exact_hashtag_here s n :
  word_run s = S n -> exact_hashtag (String "#" s) 0 (2 + n).
Proof.
  intros Hrun. pose proof (word_run_le s) as Hle.
  destruct (word_run_prefix s) as [Hlen Hword]. rewrite Hrun in Hlen, Hword.
  split; [lia |]. split; [simpl; lia |].
  exists (String.substring 0 (S n) s). simpl. rewrite Hlen, Hword. done.
Qed.

Lemma exact_hashtag_shift c s start stop :
  exact_hashtag s start stop -> exact_hashtag (String c s) (S start) (S stop).
Proof.
  intros (Hlt & Hle & token & Hsub & Hlen & Hword).
  split; [lia |]. split; [simpl; lia |].
  exists token. by simpl.
Qed.

(** Every range that the scan reports is an exact [#token] of the text
    scanned, at the offset the scan was given. *)
Lemma scan_hashtags_exact s offset start stop :
  In (start, stop) (scan_hashtags offset s) ->
  offset <= start /\ exact_hashtag s (start - offset) (stop - offset).
Proof.
  revert offset. induction s as [|c s IH]; intros offset; simpl; [done |].
  assert (In (start, stop) (scan_hashtags (S offset) s) ->
          offset <= start /\
          exact_hashtag (String c s) (start - offset) (stop - offset)) as Hrest.
  { intros Hin. destruct (IH _ Hin) as [Hle Hexact].
    split; [lia |].
    replace (start - offset) with (S (start - S offset)) by lia.
    replace (stop - offset) with (S (stop - S offset)).
    - by apply exact_hashtag_shift.
    - destruct Hexact as (? & _). lia. }
  destruct (Ascii.eqb_spec c "#") as [-> | Hc]; [| exact Hrest].
  destruct (word_run s) as [|n] eqn:Hrun; [exact Hrest |].
  intros [[= <- <-] | Hin]; [| by apply Hrest].
  split; [lia |].
  replace (offset - offset) with 0 by lia.
  replace (offset + 2 + n - offset) with (2 + n) by lia.
  by apply exact_hashtag_here.
Qed.

(** An exact token of a segment is an exact token of the caption the
    segment is part of, at the segment's position. *)
Lemma exact_hashtag_inside before mid after start stop :
  exact_hashtag mid start stop ->
  exact_hashtag (before +:+ mid +:+ after)
    (String.length before + start) (String.length before + stop).
Proof.
  intros (Hlt & Hle & token & Hsub & Hlen & Hword).
  split; [lia |]. split; [rewrite !byte_length_app; lia |].
  exists token. split; [| split; [lia | done]].
  replace (String.length before + stop - (String.length before + start))
    with (stop - start) by lia.
  rewrite substring_app_r, substring_app_l by lia. exact Hsub.
Qed.

(** Every span is an exact token of the text composed from the segments,
    and names a hashtag block among them. *)
Lemma spans_from_exact segs offset span :
  In span (spans_from offset segs) ->
  offset <= startByteOffset span /\
  exact_hashtag (compose segs)
    (startByteOffset span - offset) (endByteOffset span - offset) /\
  exists s, In s segs /\ isHashtagBlock s = true /\ seg_id s = segmentId span.
Proof.
  revert offset. induction segs as [|s segs IH]; intros offset; simpl; [done |].
  rewrite in_app_iff. intros [Hhere | Hlater].
  - destruct (isHashtagBlock s) eqn:Hblock; [| destruct Hhere].
    apply in_map_iff in Hhere as ([start stop] & <- & Hin). simpl.
    destruct (scan_hashtags_exact _ _ _ _ Hin) as [Hle Hexact].
    split; [exact Hle |]. split; [| exists s; auto].
    pose proof (exact_hashtag_inside "" (seg_text s) (compose segs) _ _ Hexact) as H.
    exact H.
  - destruct (IH _ Hlater) as (Hle & Hexact & s' & Hin & Hblock & Hid).
    split; [lia |]. split; [| exists s'; auto].
    pose proof (exact_hashtag_inside (seg_text s) (compose segs) "" _ _ Hexact) as H.
    assert (compose segs +:+ "" = compose segs) as Hnil.
    { clear. induction (compose segs) as [|x t IHt]; [done |].
      by rewrite append_cons, IHt. }
    rewrite Hnil in H.
    replace (startByteOffset span - offset)
      with (String.length (seg_text s)
            + (startByteOffset span - (offset + String.length (seg_text s)))) by lia.
    replace (endByteOffset span - offset)
      with (String.length (seg_text s)
            + (endByteOffset span - (offset + String.length (seg_text s)))).
    + exact H.
    + destruct Hexact as (? & _). lia.
Qed.

Lemma substring_tail k n t c token :
  String.substring k (S n) t = String c token ->
  String.substring (S k) n t = token.
Proof.
  revert k. induction t as [|x t IH]; intros k; [by destruct k |].
  destruct k as [|k]; simpl.
  - intros [= _ <-]. by destruct t.
  - intros H. specialize (IH k H). by destruct t.
Qed.

(** Every facet of the whole-text scan is an exact [#token] of the text,
    and its tag is the token. *)
Lemma hashtag_facets_exact t f :
  In f (RichText.hashtag_facets t) ->
  exact_hashtag t (byteStart f) (byteEnd f) /\
  String.substring (byteStart f) (byteEnd f - byteStart f) t = String "#" (tag f).
Proof.
  unfold RichText.hashtag_facets. intros Hin.
  apply in_map_iff in Hin as ([start stop] & <- & Hin). simpl.
  destruct (scan_hashtags_exact _ _ _ _ Hin) as [_ Hexact].
  rewrite !Nat.sub_0_r in Hexact. split; [exact Hexact |].
  destruct Hexact as (Hlt & Hle & token & Hsub & Hlen & Hword).
  rewrite Hsub. f_equal. symmetry.
  replace (stop - start) with (S (stop - start - 1)) in Hsub by lia.
  by apply substring_tail in Hsub.
Qed.

(** C7: every hashtag span that [build] returns is a byte range of the
    final text that reads exactly [#] followed by a non-empty token of
    word characters, and it names a hashtag block that is still part of
    the final composition; the same holds for the facets of the whole
    post text, and so for the facets of every post record that the
    Bangla-date script creates when the agent detects hashtags that way. *)
Theorem hashtag_spans_index_exact_tokens :
  (forall segments ceiling caption span,
     build segments ceiling = inr caption ->
     In span (Caption.hashtagSpans caption) ->
     exact_hashtag (Caption.text caption)
       (startByteOffset span) (endByteOffset span) /\
     exists final s,
       drops ceiling segments final /\
       Caption.text caption = compose final /\
       In s final /\ isHashtagBlock s = true /\ seg_id s = segmentId span) /\
  (forall t f,
     In f (RichText.hashtag_facets t) ->
     exact_hashtag t (byteStart f) (byteEnd f) /\
     String.substring (byteStart f) (byteEnd f - byteStart f) t
     = String "#" (tag f)) /\
  (forall w imagePath dateText info t r record f,
     detectFacets w (postText dateText info)
     = Returned (RichText.hashtag_facets (postText dateText info)) ->
     postToBluesky w imagePath dateText info = (t, r) ->
     In (CreatePost record) t ->
     In f (facets record) ->
     exact_hashtag (Index.text record) (byteStart f) (byteEnd f)).
Proof.
  split; [| split].
  - intros segments ceiling caption span. unfold build.
    destruct (fits ceiling (shrink (List.length segments) ceiling segments));
      [| discriminate].
    intros [= <-]. simpl. intros Hin.
    destruct (spans_from_exact _ _ _ Hin) as (_ & Hexact & s & Hs & Hblock & Hid).
    rewrite !Nat.sub_0_r in Hexact. split; [exact Hexact |].
    exists (shrink (List.length segments) ceiling segments), s.
    repeat split; try done. apply shrink_drops.
  - apply hashtag_facets_exact.
  - intros w imagePath dateText info t r record f Hdetect Hpost Hrecord Hf.
    apply postToBluesky_run_eq in Hpost.
    destruct Hpost; simpl in Hrecord;
      repeat (destruct Hrecord as [Hrecord | Hrecord]; [try discriminate Hrecord |]);
      try contradiction; injection Hrecord as <-; same_answers;
      simpl in *; by apply hashtag_facets_exact.
Qed.

Lemma hashtag_spans_index_exact_tokens_witness :
  build Samples.wallpaper 40
  = inr {| Caption.text := "Today's wallpaper #Wallpaper #Photo";
           Caption.hashtagSpans :=
             [ {| segmentId := "tags"; startByteOffset := 18; endByteOffset := 28 |};
               {| segmentId := "tags"; startByteOffset := 29; endByteOffset := 35 |} ] |} /\
  exact_hashtag "Today's wallpaper #Wallpaper #Photo" 18 28.
Proof.
  assert (build Samples.wallpaper 40
          = inr {| Caption.text := "Today's wallpaper #Wallpaper #Photo";
                   Caption.hashtagSpans :=
                     [ {| segmentId := "tags"; startByteOffset := 18;
                          endByteOffset := 28 |};
                       {| segmentId := "tags"; startByteOffset := 29;
                          endByteOffset := 35 |} ] |}) as H by reflexivity.
  split; [exact H |].
  refine (proj1 (proj1 hashtag_spans_index_exact_tokens Samples.wallpaper 40 _
                   {| segmentId := "tags"; startByteOffset := 18; endByteOffset := 28 |}
                   H _)).
  left. reflexivity.
Defined.

(** The eight hashtags of the Bangla-date post are found. *)
Example postText_hashtags :
  List.length (RichText.hashtag_facets (postText Samples.dateText Samples.info)) = 8.
Proof. vm_compute. reflexivity. Qed.

(** * Further properties of the code *)

(** ** utils.js: the two lookups *)

Lemma inherited_not_string s v r :
  Object_prototype !! s = Some v -> v <> VString r.
Proof.
  intros H. apply lookup_list_to_map_In in H. simpl in H.
  repeat (destruct H as [H | H]; [injection H as <- <-; discriminate |]).
  destruct H.
Qed.

(** Whenever [getBanglaOrdinal] returns a string, the input was a day
    numeral and the result its ordinal form, or the result is the input. *)
Lemma getBanglaOrdinal_string s r :
  getBanglaOrdinal s = VString r ->
  (exists n, 1 <= n <= 31 /\ s = bangla_numeral n /\
             r = bangla_numeral n +:+ ordinal_suffix n) \/
  r = s.
Proof.
  destruct (BANGLA_ORDINALS !! s) as [v|] eqn:Hown.
  - apply BANGLA_ORDINALS_keys in Hown as (n & Hn & ->).
    rewrite getBanglaOrdinal_numeral by done. intros [= <-].
    left. by exists n.
  - destruct (Object_prototype !! s) as [v|] eqn:Hproto.
    + rewrite (getBanglaOrdinal_inherited _ _ Hproto). intros ->.
      by destruct (inherited_not_string _ _ r Hproto).
    + unfold getBanglaOrdinal, get. rewrite Hown, Hproto.
      intros [= <-]. by right.
Qed.

Lemma prefix_refl s : String.prefix s s = true.
Proof.
  induction s as [|c s IH]; [done |].
  simpl. by destruct (ascii_dec c c).
Qed.

(** X1: no two days of the month share an ordinal form, so the day can
    be read back from what [getBanglaOrdinal] returns. *)
Theorem getBanglaOrdinal_days_distinct n m :
  1 <= n <= 31 -> 1 <= m <= 31 ->
  getBanglaOrdinal (bangla_numeral n) = getBanglaOrdinal (bangla_numeral m) ->
  n = m.
Proof.
  intros Hn Hm. rewrite !getBanglaOrdinal_numeral by done. intros [= Heq].
  assert (forallb (fun a =>
            forallb (fun b =>
              implb (String.eqb (bangla_numeral a +:+ ordinal_suffix a)
                                (bangla_numeral b +:+ ordinal_suffix b))
                    (a =? b))
              (seq 1 31)) (seq 1 31) = true) as Hall by (vm_compute; reflexivity).
  rewrite forallb_forall in Hall.
  specialize (Hall n). rewrite forallb_forall in Hall.
  specialize (Hall ltac:(apply in_seq; lia) m ltac:(apply in_seq; lia)).
  rewrite Heq, String.eqb_refl in Hall. by apply Nat.eqb_eq.
Qed.

Lemma getBanglaOrdinal_days_distinct_witness :
  getBanglaOrdinal (bangla_numeral 23) = getBanglaOrdinal (bangla_numeral 23) /\
  23 = 23.
Proof.
  split; [reflexivity |].
  apply (getBanglaOrdinal_days_distinct 23 23); [lia | lia | reflexivity].
Defined.

(** X2: a string that [getBanglaOrdinal] returns always begins with the
    input (the number is never rewritten, only a suffix is added), and
    giving that string to the function again returns it unchanged. *)
Theorem getBanglaOrdinal_extends_input_once s r :
  getBanglaOrdinal s = VString r ->
  String.prefix s r = true /\ getBanglaOrdinal r = VString r.
Proof.
  intros H. destruct (getBanglaOrdinal_string s r H) as [(n & [Hlo Hhi] & -> & ->) | ->].
  - clear H.
    do 32 (destruct n as [|n]; [first [lia | split; vm_compute; reflexivity] |]).
    lia.
  - split; [apply prefix_refl | exact H].
Qed.

Lemma getBanglaOrdinal_extends_input_once_witness :
  getBanglaOrdinal "২৩" = VString "২৩শে" /\
  String.prefix "২৩" "২৩শে" = true /\ getBanglaOrdinal "২৩শে" = VString "২৩শে".
Proof.
  assert (getBanglaOrdinal "২৩" = VString "২৩শে") as H by reflexivity.
  split; [exact H |].
  exact (getBanglaOrdinal_extends_input_once "২৩" "২৩শে" H).
Defined.

(** X3: a string that [getBanglaSeason] returns is empty or one of the
    six season names, and it is non-empty exactly when the input is one
    of the twelve month names. *)
Theorem getBanglaSeason_string s r :
  getBanglaSeason s = VString r ->
  (r = "" \/ In r seasons) /\
  (r <> "" <-> exists i, i < 12 /\ s = nth i months "").
Proof.
  destruct (BANGLA_SEASONS !! s) as [v|] eqn:Hown.
  - apply BANGLA_SEASONS_keys in Hown as (i & Hi & ->).
    destruct (getBanglaSeason_month i Hi) as (-> & Hin & _).
    intros [= <-]. split; [by right |]. split; [by exists i |].
    intros _. clear Hin.
    do 12 (destruct i as [|i]; [discriminate |]). lia.
  - destruct (Object_prototype !! s) as [v|] eqn:Hproto.
    + rewrite (getBanglaSeason_inherited _ _ Hproto). intros ->.
      by destruct (inherited_not_string _ _ r Hproto).
    + unfold getBanglaSeason, get. rewrite Hown, Hproto.
      intros [= <-]. split; [by left |]. split; [done |].
      intros (i & Hi & ->). by rewrite BANGLA_SEASONS_month in Hown.
Qed.

Lemma getBanglaSeason_string_witness :
  getBanglaSeason "কার্তিক" = VString "হেমন্ত" /\ In "হেমন্ত" seasons.
Proof.
  assert (getBanglaSeason "কার্তিক" = VString "হেমন্ত") as H by reflexivity.
  split; [exact H |].
  destruct (proj1 (getBanglaSeason_string "কার্তিক" "হেমন্ত" H)) as [Hempty | Hin].
  - discriminate Hempty.
  - exact Hin.
Defined.

(** ** utils.js: toBangladeshTime and padZero *)

(** X4: for a date at least six hours before the end of the range of
    time values, [toBangladeshTime] gives the date whose time value is
    six hours later: read in UTC, the hour is six more (modulo 24), the
    minute, second and millisecond are the same, and the day is the next
    one exactly when the hour was 18 or later. *)
Theorem toBangladeshTime_reading t :
  (Z.abs t <= UtilsTime.maxTime)%Z ->
  (t + 21600000 <= UtilsTime.maxTime)%Z ->
  UtilsTime.toBangladeshTime (UtilsTime.ValidDate t)
  = UtilsTime.ValidDate (t + 21600000) /\
  UtilsTime.HourFromTime (t + 21600000)
  = ((UtilsTime.HourFromTime t + 6) mod 24)%Z /\
  UtilsTime.MinFromTime (t + 21600000) = UtilsTime.MinFromTime t /\
  UtilsTime.SecFromTime (t + 21600000) = UtilsTime.SecFromTime t /\
  UtilsTime.msFromTime (t + 21600000) = UtilsTime.msFromTime t /\
  UtilsTime.Day (t + 21600000)
  = (UtilsTime.Day t + if (18 <=? UtilsTime.HourFromTime t)%Z then 1 else 0)%Z.
Proof.
  intros Hrange Hroom.
  unfold UtilsTime.toBangladeshTime, UtilsTime.newDate, UtilsTime.plus,
    UtilsTime.getTime, UtilsTime.maxTime in *.
  change (6 * 60 * 60 * 1000)%Z with 21600000%Z.
  split.
  { destruct (Z.leb_spec (Z.abs (t + 21600000)) 8640000000000000); [done | lia]. }
  unfold UtilsTime.HourFromTime, UtilsTime.MinFromTime, UtilsTime.SecFromTime,
    UtilsTime.msFromTime, UtilsTime.Day.
  replace (t + 21600000)%Z with (t + 6 * 3600000)%Z at 1 by lia.
  replace (t + 21600000)%Z with (t + 360 * 60000)%Z at 1 by lia.
  replace (t + 21600000)%Z with (t + 21600 * 1000)%Z at 1 by lia.
  replace (t + 21600000)%Z with (t + 21600 * 1000)%Z at 1 by lia.
  rewrite !Z.div_add by lia. rewrite Z_mod_plus_full.
  split; [by rewrite Zplus_mod_idemp_l |].
  split; [replace 360%Z with (6 * 60)%Z by lia; by rewrite Z_mod_plus_full |].
  split; [replace 21600%Z with (360 * 60)%Z by lia; by rewrite Z_mod_plus_full |].
  split; [done |].
  replace 86400000%Z with (3600000 * 24)%Z by lia.
  rewrite <- !Z.div_div by lia.
  replace (t + 21600000)%Z with (t + 6 * 3600000)%Z by lia.
  rewrite Z.div_add by lia.
  set (q := (t / 3600000)%Z).
  pose proof (Z.div_mod q 24 ltac:(lia)) as Hq.
  pose proof (Z.mod_pos_bound q 24 ltac:(lia)) as Hb.
  destruct (Z.leb_spec 18 (q mod 24)) as [Hlate | Hearly].
  - symmetry. apply (Z.div_unique _ _ _ (q mod 24 + 6 - 24)); lia.
  - symmetry. apply (Z.div_unique _ _ _ (q mod 24 + 6)); lia.
Qed.

Lemma toBangladeshTime_reading_witness :
  (Z.abs 1762470000000 <= UtilsTime.maxTime)%Z /\
  UtilsTime.toBangladeshTime (UtilsTime.ValidDate 1762470000000)
  = UtilsTime.ValidDate (1762470000000 + 21600000).
Proof.
  assert (Z.abs 1762470000000 <= UtilsTime.maxTime)%Z as H by (vm_compute; discriminate).
  split; [exact H |].
  refine (proj1 (toBangladeshTime_reading 1762470000000 H _)).
  vm_compute; discriminate.
Defined.

(** X5: [toBangladeshTime] gives Invalid Date for Invalid Date, and also
    for every valid date in the last six hours of the range of time
    values. *)
Theorem toBangladeshTime_invalid :
  UtilsTime.toBangladeshTime UtilsTime.InvalidDate = UtilsTime.InvalidDate /\
  forall t,
    (UtilsTime.maxTime - 21600000 < t <= UtilsTime.maxTime)%Z ->
    UtilsTime.toBangladeshTime (UtilsTime.ValidDate t) = UtilsTime.InvalidDate.
Proof.
  split; [reflexivity |]. intros t Ht.
  unfold UtilsTime.toBangladeshTime, UtilsTime.newDate, UtilsTime.plus,
    UtilsTime.getTime, UtilsTime.maxTime in *.
  change (6 * 60 * 60 * 1000)%Z with 21600000%Z.
  destruct (Z.leb_spec (Z.abs (t + 21600000)) 8640000000000000); [lia | done].
Qed.

Lemma toBangladeshTime_invalid_witness :
  (UtilsTime.maxTime - 21600000 < UtilsTime.maxTime <= UtilsTime.maxTime)%Z /\
  UtilsTime.toBangladeshTime (UtilsTime.ValidDate UtilsTime.maxTime)
  = UtilsTime.InvalidDate.
Proof.
  assert (UtilsTime.maxTime - 21600000 < UtilsTime.maxTime <= UtilsTime.maxTime)%Z
    as H by (split; vm_compute; [reflexivity | discriminate]).
  split; [exact H |].
  exact (proj2 toBangladeshTime_invalid UtilsTime.maxTime H).
Defined.

(** X6: the [bdTime] that [getBanglaDateInfo] computes is
    [toBangladeshTime(now)] moved by the host's timezone offset: the two
    are the same date exactly when that offset is zero, that is on a host
    whose clock is set to UTC. *)
Theorem bdTime_and_toBangladeshTime t timezoneOffset :
  (Z.abs t <= UtilsTime.maxTime)%Z ->
  (Z.abs (t + timezoneOffset * 60000 + 21600000) <= UtilsTime.maxTime)%Z ->
  (t + 21600000 <= UtilsTime.maxTime)%Z ->
  UtilsTime.bdTime (UtilsTime.ValidDate t) timezoneOffset
  = UtilsTime.ValidDate (t + 21600000 + timezoneOffset * 60000) /\
  (UtilsTime.bdTime (UtilsTime.ValidDate t) timezoneOffset
   = UtilsTime.toBangladeshTime (UtilsTime.ValidDate t)
   <-> timezoneOffset = 0%Z).
Proof.
  intros Hrange Hinside Hroom.
  destruct (toBangladeshTime_reading t Hrange Hroom) as [-> _].
  unfold UtilsTime.bdTime, UtilsTime.newDate, UtilsTime.plus, UtilsTime.getTime.
  change (6 * 60 * 60 * 1000)%Z with 21600000%Z.
  destruct (Z.leb_spec (Z.abs (t + timezoneOffset * 60000 + 21600000))
              UtilsTime.maxTime) as [_ | Hout]; [| lia].
  split; [f_equal; lia |].
  split; [intros [= H]; lia | intros ->; f_equal; lia].
Qed.

Lemma bdTime_and_toBangladeshTime_witness :
  (Z.abs 1762470000000 <= UtilsTime.maxTime)%Z /\
  UtilsTime.bdTime (UtilsTime.ValidDate 1762470000000) (-360)
  = UtilsTime.ValidDate (1762470000000 + 21600000 + -360 * 60000).
Proof.
  assert (Z.abs 1762470000000 <= UtilsTime.maxTime)%Z as H by (vm_compute; discriminate).
  split; [exact H |].
  refine (proj1 (bdTime_and_toBangladeshTime 1762470000000 (-360) H _ _)).
  - vm_compute; discriminate.
  - vm_compute; discriminate.
Defined.

Lemma digit_units d : utf16_units (UtilsTime.digit d) = 1.
Proof. do 10 (destruct d as [|d]; [reflexivity |]). reflexivity. Qed.

Lemma digits_longer rounds n acc :
  JS.length acc + 1 <= JS.length (UtilsTime.digits rounds n acc).
Proof.
  revert n acc. induction rounds as [|rounds IH]; intros n acc;
    cbn [UtilsTime.digits].
  - cbn [JS.length]. rewrite digit_units. lia.
  - destruct (n <? 10)%N.
    + cbn [JS.length]. rewrite digit_units. lia.
    + etrans; [| apply IH]. cbn [JS.length]. rewrite digit_units. lia.
Qed.

Lemma digits_step rounds n acc :
  UtilsTime.digits (S rounds) n acc
  = if (n <? 10)%N
    then String (UtilsTime.digit (N.to_nat (n mod 10))) acc
    else UtilsTime.digits rounds (n / 10)
           (String (UtilsTime.digit (N.to_nat (n mod 10))) acc).
Proof. reflexivity. Qed.

(** X7: for a safe integer (magnitude at most 2^53 - 1), [padZero] puts
    one ["0"] in front of the decimal form of 0 to 9 and returns the
    decimal form of every other one as it is (negative one-digit numbers
    included, so [padZero(-5)] is ["-5"]); the result always has at least
    two characters, and for 0 to 99 it is the number's two decimal
    digits. *)
Theorem padZero_pads_single_digits num :
  (-9007199254740991 <= num <= 9007199254740991)%Z ->
  UtilsTime.padZero num
  = (if (0 <=? num)%Z && (num <=? 9)%Z
     then String "0" (UtilsTime.toString num)
     else UtilsTime.toString num) /\
  2 <= JS.length (UtilsTime.padZero num) /\
  ((0 <= num <= 99)%Z ->
   UtilsTime.padZero num
   = String (UtilsTime.digit (Z.to_nat (num / 10)))
       (String (UtilsTime.digit (Z.to_nat (num mod 10))) "")).
Proof.
  intros _.
  assert (UtilsTime.padZero num
          = (if (0 <=? num)%Z && (num <=? 9)%Z
             then String "0" (UtilsTime.toString num)
             else UtilsTime.toString num) /\
          2 <= JS.length (UtilsTime.padZero num)) as [Hpad Hlen].
  { unfold UtilsTime.padZero, UtilsTime.padStart, UtilsTime.toString.
    destruct (Z.ltb_spec num 0) as [Hneg | Hpos].
    - destruct (Z.leb_spec 0 num) as [? | _]; [lia |]. cbn [andb].
      pose proof (digits_longer 20 (Z.to_N (- num)) "") as Hd.
      cbn [JS.length] in *. change (utf16_units "-") with 1.
      destruct (Nat.leb_spec 2 (1 + JS.length (UtilsTime.digits 20 (Z.to_N (- num)) "")));
        [| lia].
      split; [reflexivity |]. cbn [JS.length]. change (utf16_units "-") with 1. lia.
    - destruct (Z.leb_spec 0 num) as [_ | ?]; [| lia]. cbn [andb].
      change 20 with (S 19). rewrite digits_step.
      destruct (Z.leb_spec num 9) as [Hsmall | Hbig].
      + assert ((Z.to_N num <? 10)%N = true) as -> by (apply N.ltb_lt; lia).
        cbn [JS.length]. rewrite digit_units. cbn [Nat.leb Nat.add Nat.sub].
        split; [reflexivity |].
        rewrite js_length_app. cbn [UtilsTime.repeat_char JS.length].
        rewrite digit_units. change (utf16_units "0") with 1. lia.
      + assert ((Z.to_N num <? 10)%N = false) as -> by (apply N.ltb_ge; lia).
        pose proof (digits_longer 19 (Z.to_N num / 10)
                      (String (UtilsTime.digit (N.to_nat (Z.to_N num mod 10))) "")) as Hd.
        cbn [JS.length] in Hd. rewrite digit_units in Hd.
        destruct (Nat.leb_spec 2 (JS.length
                    (UtilsTime.digits 19 (Z.to_N num / 10)
                       (String (UtilsTime.digit (N.to_nat (Z.to_N num mod 10))) ""))));
          [| lia].
        split; [reflexivity | lia]. }
  split; [exact Hpad |]. split; [exact Hlen |].
  intros Hsmall. clear Hpad Hlen.
  assert (forallb (fun k =>
            String.eqb (UtilsTime.padZero (Z.of_nat k))
              (String (UtilsTime.digit (Z.to_nat (Z.of_nat k / 10)))
                 (String (UtilsTime.digit (Z.to_nat (Z.of_nat k mod 10))) "")))
            (seq 0 100) = true) as Hall by (vm_compute; reflexivity).
  rewrite forallb_forall in Hall.
  specialize (Hall (Z.to_nat num) ltac:(apply in_seq; lia)).
  rewrite Z2Nat.id in Hall by lia. by apply String.eqb_eq.
Qed.

Lemma padZero_pads_single_digits_witness :
  (-9007199254740991 <= 7 <= 9007199254740991)%Z /\
  UtilsTime.padZero 7 = "07" /\ UtilsTime.padZero (-5) = "-5" /\
  UtilsTime.padZero 123 = "123".
Proof.
  assert (-9007199254740991 <= 7 <= 9007199254740991)%Z as H
    by (split; discriminate).
  split; [exact H |].
  split; [exact (proj1 (padZero_pads_single_digits 7 H)) |].
  split; reflexivity.
Defined.

(** ** index.js: hexToRgb *)

Ltac each_ascii c := destruct c as [[|] [|] [|] [|] [|] [|] [|] [|]].

Lemma hex_digit_value_small c :
  Colors.is_hex_digit c = true -> Colors.hex_digit_value c <= 15.
Proof. each_ascii c; vm_compute; first [discriminate | intros _; lia]. Qed.

Lemma hash_not_hex c :
  Ascii.eqb c "#" = true -> Colors.is_hex_digit c = false.
Proof. each_ascii c; vm_compute; first [discriminate | reflexivity]. Qed.

(** What a match of the six digits says about the string. *)
Lemma three_groups_Some s g1 g2 g3 :
  Colors.three_groups s = Some (g1, g2, g3) ->
  s = String (fst g1) (String (snd g1) (String (fst g2) (String (snd g2)
        (String (fst g3) (String (snd g3) ""))))) /\
  Colors.is_hex_digit (fst g1) = true /\ Colors.is_hex_digit (snd g1) = true /\
  Colors.is_hex_digit (fst g2) = true /\ Colors.is_hex_digit (snd g2) = true /\
  Colors.is_hex_digit (fst g3) = true /\ Colors.is_hex_digit (snd g3) = true.
Proof.
  destruct s as [|c1 [|c2 [|c3 [|c4 [|c5 [|c6 [|c7 s]]]]]]]; try discriminate.
  cbn [Colors.three_groups].
  destruct (Colors.is_hex_digit c1) eqn:H1; [| discriminate].
  destruct (Colors.is_hex_digit c2) eqn:H2; [| discriminate].
  destruct (Colors.is_hex_digit c3) eqn:H3; [| discriminate].
  destruct (Colors.is_hex_digit c4) eqn:H4; [| discriminate].
  destruct (Colors.is_hex_digit c5) eqn:H5; [| discriminate].
  destruct (Colors.is_hex_digit c6) eqn:H6; [| discriminate].
  cbn [andb]. intros [= <- <- <-]. by cbn [fst snd].
Qed.

(** A string that starts with [#] never matches without it being taken,
    so giving the [#] back changes nothing. *)
Lemma exec_cases hex groups :
  Colors.exec hex = Some groups ->
  exists body,
    (hex = body \/ hex = String "#" body) /\
    Colors.three_groups body = Some groups.
Proof.
  destruct hex as [|c rest]; cbn [Colors.exec]; [discriminate |].
  destruct (Ascii.eqb_spec c "#") as [-> | Hc].
  - destruct (Colors.three_groups rest) as [g|] eqn:Hrest.
    + intros [= <-]. exists rest. auto.
    + intros H. exists (String "#" rest). auto.
  - intros H. exists (String c rest). auto.
Qed.

(** X8: every component that [hexToRgb] returns is between 0 and 255,
    whatever the input string. *)
Theorem hexToRgb_components_in_range hex :
  Colors.r (Colors.hexToRgb hex) <= 255 /\
  Colors.g (Colors.hexToRgb hex) <= 255 /\
  Colors.b (Colors.hexToRgb hex) <= 255.
Proof.
  unfold Colors.hexToRgb.
  destruct (Colors.exec hex) as [[[g1 g2] g3]|] eqn:Hexec; [| cbn; lia].
  apply exec_cases in Hexec as (body & _ & Hbody).
  apply three_groups_Some in Hbody as (_ & H1 & H2 & H3 & H4 & H5 & H6).
  apply hex_digit_value_small in H1, H2, H3, H4, H5, H6.
  cbn [Colors.rgb_of Colors.r Colors.g Colors.b]. unfold Colors.parseInt16. lia.
Qed.

(** X9: [hexToRgb] returns black for every string that is not exactly six
    hexadecimal digits, with or without one leading [#]: whenever the
    result is not black the input has that form, so strings of any other
    length (the three-digit shorthand among them) give black. *)
Theorem hexToRgb_other_strings_are_black hex :
  (Colors.hexToRgb hex <> {| Colors.r := 0; Colors.g := 0; Colors.b := 0 |} ->
   exists body,
     (hex = body \/ hex = String "#" body) /\
     String.length body = 6 /\ Colors.all_hex_digits body = true) /\
  (String.length hex <> 6 -> String.length hex <> 7 ->
   Colors.hexToRgb hex = {| Colors.r := 0; Colors.g := 0; Colors.b := 0 |}).
Proof.
  assert (forall groups, Colors.exec hex = Some groups ->
            exists body,
              (hex = body \/ hex = String "#" body) /\
              String.length body = 6 /\ Colors.all_hex_digits body = true) as Hform.
  { intros [[g1 g2] g3] Hexec.
    apply exec_cases in Hexec as (body & Hhex & Hbody).
    apply three_groups_Some in Hbody as (-> & H1 & H2 & H3 & H4 & H5 & H6).
    eexists. split; [exact Hhex |]. split; [reflexivity |].
    cbn [Colors.all_hex_digits]. by rewrite H1, H2, H3, H4, H5, H6. }
  unfold Colors.hexToRgb.
  destruct (Colors.exec hex) as [[[g1 g2] g3]|] eqn:Hexec.
  - destruct (Hform _ eq_refl) as (body & Hhex & Hlen & Hall).
    split; [intros _; by exists body |].
    intros H6 H7. destruct Hhex as [-> | ->]; simpl in *; lia.
  - split; [intros H; by destruct H | reflexivity].
Qed.

Lemma hexToRgb_other_strings_are_black_witness :
  String.length "#fff" <> 6 /\
  Colors.hexToRgb "#fff" = {| Colors.r := 0; Colors.g := 0; Colors.b := 0 |}.
Proof.
  assert (String.length "#fff" <> 6) as H by (simpl; lia).
  split; [exact H |].
  refine (proj2 (hexToRgb_other_strings_are_black "#fff") H _).
  simpl; lia.
Defined.

Lemma append_nil_l s : "" +:+ s = s.
Proof. reflexivity. Qed.

Lemma two_hex_digits upper n :
  n <= 255 ->
  Colors.is_hex_digit (Colors.hex_char upper (n / 16)) = true /\
  Colors.is_hex_digit (Colors.hex_char upper (n mod 16)) = true /\
  Ascii.eqb (Colors.hex_char upper (n / 16)) "#" = false /\
  Colors.parseInt16 (Colors.hex_char upper (n / 16),
                     Colors.hex_char upper (n mod 16)) = n.
Proof.
  intros Hn.
  assert (forallb (fun u => forallb (fun k =>
            Colors.is_hex_digit (Colors.hex_char u (k / 16))
            && Colors.is_hex_digit (Colors.hex_char u (k mod 16))
            && negb (Ascii.eqb (Colors.hex_char u (k / 16)) "#")
            && (Colors.parseInt16 (Colors.hex_char u (k / 16),
                                   Colors.hex_char u (k mod 16)) =? k))
            (seq 0 256)) [true; false] = true) as Hall by (vm_compute; reflexivity).
  rewrite forallb_forall in Hall.
  specialize (Hall upper ltac:(destruct upper; simpl; tauto)).
  rewrite forallb_forall in Hall.
  specialize (Hall n ltac:(apply in_seq; lia)).
  apply andb_prop in Hall as [Hall H4]. apply andb_prop in Hall as [Hall H3].
  apply andb_prop in Hall as [H1 H2].
  apply Nat.eqb_eq in H4. apply negb_true_iff in H3. auto.
Qed.

(** X10: a colour whose components are at most 255, written as six
    hexadecimal digits in lower or upper case, with or without the
    leading [#], is read back by [hexToRgb] as that colour. *)
Theorem hexToRgb_reads_back hash upper c :
  Colors.r c <= 255 -> Colors.g c <= 255 -> Colors.b c <= 255 ->
  Colors.hexToRgb (Colors.to_hex hash upper c) = c.
Proof.
  destruct c as [r g b]. cbn [Colors.r Colors.g Colors.b]. intros Hr Hg Hb.
  destruct (two_hex_digits upper r Hr) as (Hr1 & Hr2 & Hr3 & Hr4).
  destruct (two_hex_digits upper g Hg) as (Hg1 & Hg2 & _ & Hg4).
  destruct (two_hex_digits upper b Hb) as (Hb1 & Hb2 & _ & Hb4).
  unfold Colors.to_hex. cbn [Colors.r Colors.g Colors.b].
  destruct hash; rewrite ?append_cons, ?append_nil_l;
    unfold Colors.hexToRgb, Colors.exec.
  - change (Ascii.eqb "#" "#") with true. cbn [Colors.three_groups].
    rewrite Hr1, Hr2, Hg1, Hg2, Hb1, Hb2. cbn [andb Colors.rgb_of].
    by rewrite Hr4, Hg4, Hb4.
  - rewrite Hr3. cbn [Colors.three_groups].
    rewrite Hr1, Hr2, Hg1, Hg2, Hb1, Hb2. cbn [andb Colors.rgb_of].
    by rewrite Hr4, Hg4, Hb4.
Qed.

Lemma hexToRgb_reads_back_witness :
  Colors.r {| Colors.r := 15; Colors.g := 23; Colors.b := 42 |} <= 255 /\
  Colors.hexToRgb "#0f172a" = {| Colors.r := 15; Colors.g := 23; Colors.b := 42 |}.
Proof.
  assert (Colors.r {| Colors.r := 15; Colors.g := 23; Colors.b := 42 |} <= 255) as H
    by (simpl; lia).
  split; [exact H |].
  refine (hexToRgb_reads_back true false
            {| Colors.r := 15; Colors.g := 23; Colors.b := 42 |} H _ _).
  - simpl; lia.
  - simpl; lia.
Defined.

Lemma lower_ascii_hash c : Ascii.eqb (lower_ascii c) "#" = Ascii.eqb c "#".
Proof. each_ascii c; reflexivity. Qed.

Lemma lower_ascii_hex c :
  Colors.is_hex_digit (lower_ascii c) = Colors.is_hex_digit c.
Proof. each_ascii c; reflexivity. Qed.

Lemma lower_ascii_value c :
  Colors.is_hex_digit c = true ->
  Colors.hex_digit_value (lower_ascii c) = Colors.hex_digit_value c.
Proof. each_ascii c; vm_compute; first [discriminate | reflexivity]. Qed.

Lemma three_groups_lower s :
  option_map Colors.rgb_of (Colors.three_groups (toLowerCase s))
  = option_map Colors.rgb_of (Colors.three_groups s).
Proof.
  destruct s as [|c1 [|c2 [|c3 [|c4 [|c5 [|c6 [|c7 s]]]]]]]; try reflexivity.
  cbn [toLowerCase Colors.three_groups]. rewrite !lower_ascii_hex.
  destruct (Colors.is_hex_digit c1) eqn:H1; [| reflexivity].
  destruct (Colors.is_hex_digit c2) eqn:H2; [| reflexivity].
  destruct (Colors.is_hex_digit c3) eqn:H3; [| reflexivity].
  destruct (Colors.is_hex_digit c4) eqn:H4; [| reflexivity].
  destruct (Colors.is_hex_digit c5) eqn:H5; [| reflexivity].
  destruct (Colors.is_hex_digit c6) eqn:H6; [| reflexivity].
  cbn [andb option_map Colors.rgb_of]. unfold Colors.parseInt16. cbn [fst snd].
  by rewrite !lower_ascii_value.
Qed.

(** X11: [hexToRgb] does not depend on the case of the letters: the
    lower-cased string gives the same colour. *)
Theorem hexToRgb_ignores_case hex :
  Colors.hexToRgb (toLowerCase hex) = Colors.hexToRgb hex.
Proof.
  assert (option_map Colors.rgb_of (Colors.exec (toLowerCase hex))
          = option_map Colors.rgb_of (Colors.exec hex)) as H.
  { destruct hex as [|c rest]; [reflexivity |].
    pose proof (three_groups_lower (String c rest)) as Hwhole.
    pose proof (three_groups_lower rest) as Hrest.
    cbn [toLowerCase] in *. cbn [Colors.exec]. rewrite lower_ascii_hash.
    destruct (Ascii.eqb c "#"); [| exact Hwhole].
    destruct (Colors.three_groups (toLowerCase rest)),
             (Colors.three_groups rest); try discriminate; done. }
  unfold Colors.hexToRgb.
  destruct (Colors.exec (toLowerCase hex)), (Colors.exec hex);
    cbn [option_map] in H; congruence.
Qed.

(** ** index.js: loadFonts *)

(** X12: the nested loops of [loadFonts] are a first-success search over
    four font files in a fixed order (Ekush, the two Hind Siliguri files,
    Noto Sans Bengali): the [registerFont] calls it makes are those of
    that search, and it returns the family the search finds, or
    ['sans-serif'] when it finds none. *)
Theorem loadFonts_is_first_success a :
  Studio.registrations (fst (Studio.loadFonts a))
  = fst (Studio.first_success a (Studio.candidates a)) /\
  snd (Studio.loadFonts a)
  = match snd (Studio.first_success a (Studio.candidates a)) with
    | Some family => family
    | None => "sans-serif"
    end.
Proof.
  unfold Studio.loadFonts, Studio.candidates, Studio.fallbackFonts.
  cbn [Studio.first_success Studio.tryFallbacks Studio.tryPatterns fst snd].
  unfold Studio.registers. cbn [fst snd].
  repeat match goal with
    | |- context [Studio.fileExists a ?p] =>
        destruct (Studio.fileExists a p) eqn:?
    | |- context [Studio.registerFont a ?p ?f] =>
        destruct (Studio.registerFont a p f) as [[]|?] eqn:?
    end; by cbn.
Qed.

(** What the search tries: files that exist, among the candidates. *)
Lemma first_success_tried a l c :
  In c (fst (Studio.first_success a l)) ->
  Studio.fileExists a (fst c) = true /\ In c l.
Proof.
  induction l as [|c0 l IH]; cbn [Studio.first_success]; [intros [] |].
  destruct (Studio.fileExists a (fst c0)) eqn:Hex.
  - destruct (Studio.registers a c0) eqn:Hreg.
    + intros [<- | []]. split; [done | by left].
    + destruct (Studio.first_success a l) as [tried found].
      cbn [fst] in *. intros [<- | H]; [split; [done | by left] |].
      destruct (IH H). split; [done | by right].
  - intros H. destruct (IH H). split; [done | by right].
Qed.

(** A file that registers is the last one tried. *)
Lemma first_success_stops a l tried1 c tried2 :
  fst (Studio.first_success a l) = tried1 ++ c :: tried2 ->
  Studio.registers a c = true -> tried2 = [].
Proof.
  revert tried1. induction l as [|c0 l IH]; intros tried1;
    cbn [Studio.first_success].
  { intros H. by destruct tried1. }
  destruct (Studio.fileExists a (fst c0)) eqn:Hex; [| apply IH].
  destruct (Studio.registers a c0) eqn:Hreg.
  - cbn [fst]. intros H _. destruct tried1 as [|? [|? ?]]; by injection H.
  - destruct (Studio.first_success a l) as [tried found].
    cbn [fst] in *. intros H Hc. destruct tried1 as [|c1 tried1].
    + injection H as <- _. congruence.
    + injection H as _ H. by eapply IH.
Qed.

(** The search finds nothing exactly when no candidate is usable. *)
Lemma first_success_None a l :
  snd (Studio.first_success a l) = None <->
  forall c, In c l -> Studio.fileExists a (fst c) = true ->
            Studio.registers a c = false.
Proof.
  induction l as [|c0 l IH]; cbn [Studio.first_success]; [done |].
  destruct (Studio.fileExists a (fst c0)) eqn:Hex.
  - destruct (Studio.registers a c0) eqn:Hreg.
    + cbn [snd]. split; [discriminate |].
      intros H. specialize (H c0 (or_introl eq_refl) Hex). congruence.
    + destruct (Studio.first_success a l) as [tried found].
      cbn [snd] in *. rewrite IH. split.
      * intros H c [<- | Hin] Hc; [done | by apply H].
      * intros H c Hin. apply H. by right.
  - rewrite IH. split.
    + intros H c [<- | Hin] Hc; [congruence | by apply H].
    + intros H c Hin. apply H. by right.
Qed.

(** What the search finds is the family of one of the candidates. *)
Lemma first_success_Some a l family :
  snd (Studio.first_success a l) = Some family ->
  exists c, In c l /\ snd c = family.
Proof.
  induction l as [|c0 l IH]; cbn [Studio.first_success]; [discriminate |].
  destruct (Studio.fileExists a (fst c0)) eqn:Hex.
  - destruct (Studio.registers a c0) eqn:Hreg.
    + intros [= <-]. exists c0. split; [by left | done].
    + destruct (Studio.first_success a l) as [tried found].
      cbn [snd] in *. intros H. destruct (IH H) as (c & Hin & Hc).
      exists c. split; [by right | done].
  - intros H. destruct (IH H) as (c & Hin & Hc).
    exists c. split; [by right | done].
Qed.

(** X13: [loadFonts] calls [registerFont] only on files that exist and
    that are among its four candidates, it makes no further call once a
    registration has succeeded, and it returns ['sans-serif'] exactly when
    no candidate file both exists and registers. *)
Theorem loadFonts_registration_discipline a :
  (forall path family,
     In (path, family) (Studio.registrations (fst (Studio.loadFonts a))) ->
     Studio.fileExists a path = true /\ In (path, family) (Studio.candidates a)) /\
  (forall tried1 c tried2,
     Studio.registrations (fst (Studio.loadFonts a)) = tried1 ++ c :: tried2 ->
     Studio.registers a c = true -> tried2 = []) /\
  (snd (Studio.loadFonts a) = "sans-serif" <->
   forall c, In c (Studio.candidates a) ->
             Studio.fileExists a (fst c) = true -> Studio.registers a c = false).
Proof.
  destruct (loadFonts_is_first_success a) as [-> ->].
  split; [intros path family H; exact (first_success_tried _ _ _ H) |].
  split; [apply first_success_stops |].
  rewrite <- first_success_None.
  destruct (snd (Studio.first_success a (Studio.candidates a))) as [family|] eqn:Hfound;
    [| done].
  split; [| discriminate].
  intros ->. destruct (first_success_Some _ _ _ Hfound) as (c & Hc & Hfam).
  unfold Studio.candidates in Hc. simpl in Hc.
  repeat (destruct Hc as [<- | Hc]; [discriminate Hfam |]). destruct Hc.
Qed.

Lemma loadFonts_registration_discipline_witness :
  In ("fonts/HindSiliguri-Regular.ttf", "Hind Siliguri")
     (Studio.registrations (fst (Studio.loadFonts MoreSamples.hind_only))) /\
  Studio.fileExists MoreSamples.hind_only "fonts/HindSiliguri-Regular.ttf" = true.
Proof.
  assert (In ("fonts/HindSiliguri-Regular.ttf", "Hind Siliguri")
             (Studio.registrations (fst (Studio.loadFonts MoreSamples.hind_only))))
    as H by (left; reflexivity).
  split; [exact H |].
  exact (proj1 (proj1 (loadFonts_registration_discipline MoreSamples.hind_only) _ _ H)).
Defined.

Example loadFonts_hind_only :
  snd (Studio.loadFonts MoreSamples.hind_only) = "Hind Siliguri".
Proof. reflexivity. Qed.

(** ** index.js: getProfileInfo and downloadImage *)







Lemma field_or_nonempty field fallback :
  fallback <> "" -> Studio.field_or field fallback <> "".
Proof.
  intros Hf. unfold Studio.field_or. destruct field as [s|]; [| done].
  by destruct (String.eqb_spec s "").
Qed.

(** X15: [getProfileInfo] makes exactly one request, to the profile URL
    of the clean handle, and writes at most one warning after it; when it
    warns (the request failed, the answer was not OK, or the body could
    not be read) it returns the clean handle as handle and display name,
    with no avatar; the avatar it returns is never the empty string, and
    the handle and display name are empty only if the clean handle is. *)
Theorem getProfileInfo_result w a :
  exists rest,
    fst (Studio.getProfileInfo w a) = Studio.Fetch (Studio.profileUrl w) :: rest /\
    (rest = [] \/ exists line, rest = [Studio.Console Warn line]) /\
    (rest <> [] ->
     snd (Studio.getProfileInfo w a)
     = {| Studio.handle := Studio.cleanHandle w;
          Studio.displayName := Studio.cleanHandle w;
          Studio.avatar := None |}) /\
    Studio.avatar (snd (Studio.getProfileInfo w a)) <> Some "" /\
    (Studio.cleanHandle w <> "" ->
     Studio.handle (snd (Studio.getProfileInfo w a)) <> "" /\
     Studio.displayName (snd (Studio.getProfileInfo w a)) <> "").
Proof.
  unfold Studio.getProfileInfo. cbv zeta.
  destruct (Studio.fetch a (Studio.profileUrl w)) as [response|e];
    [destruct (Studio.ok response);
     [destruct (Studio.json response) as [profile|e] |] |];
    cbn [fst snd Studio.avatar Studio.handle Studio.displayName];
    eexists; (split; [reflexivity |]).
  2-4: by (split; [right; eexists | repeat split; try done; intros [= ?]]).
  split; [by left |]. split; [done |]. split.
  - unfold Studio.avatar_or_null. destruct (Studio.profile_avatar profile) as [s|];
      [| done].
    destruct (String.eqb_spec s ""); [done | congruence].
  - intros Hne. split; by apply field_or_nonempty.
Qed.

Example cleanHandle_leading_at : Studio.cleanHandle MoreSamples.at_handle = "".
Proof. reflexivity. Qed.

Lemma settle_data acc chunks rest :
  Studio.settle acc (List.map Studio.Data chunks ++ rest)
  = Studio.settle (acc ++ chunks) rest.
Proof.
  revert acc. induction chunks as [|c chunks IH]; intros acc; cbn.
  - by rewrite app_nil_r.
  - rewrite IH. by rewrite <- app_assoc.
Qed.

(** X16: [downloadImage] resolves with the bytes of all chunks received
    before the first [end], in the order they arrived, and ignores what
    comes after; it rejects with the first error when that comes before
    any [end]; and as long as neither has come it stays pending. *)
Theorem downloadImage_collects_chunks a url chunks rest :
  (Studio.httpsGet a url
   = Studio.Incoming (List.map Studio.Data chunks ++ Studio.End :: rest) ->
   Studio.downloadImage a url = Some (Returned (List.concat chunks))) /\
  (forall e,
     Studio.httpsGet a url
     = Studio.Incoming (List.map Studio.Data chunks ++ Studio.StreamError e :: rest) ->
     Studio.downloadImage a url = Some (Thrown e)) /\
  (Studio.httpsGet a url = Studio.Incoming (List.map Studio.Data chunks) ->
   Studio.downloadImage a url = None).
Proof.
  unfold Studio.downloadImage.
  split; [| split]; [intros -> | intros e -> | intros ->].
  - by rewrite settle_data.
  - by rewrite settle_data.
  - rewrite <- (app_nil_r (List.map Studio.Data chunks)). by rewrite settle_data.
Qed.

Lemma downloadImage_collects_chunks_witness :
  Studio.httpsGet MoreSamples.hind_only "https://bsky.app/static/apple-touch-icon.png"
  = Studio.Incoming (List.map Studio.Data [[x89; x50]; [x4e; x47]] ++ Studio.End :: []) /\
  Studio.downloadImage MoreSamples.hind_only "https://bsky.app/static/apple-touch-icon.png"
  = Some (Returned [x89; x50; x4e; x47]).
Proof.
  assert (Studio.httpsGet MoreSamples.hind_only
            "https://bsky.app/static/apple-touch-icon.png"
          = Studio.Incoming (List.map Studio.Data [[x89; x50]; [x4e; x47]]
                             ++ Studio.End :: [])) as H by reflexivity.
  split; [exact H |].
  exact (proj1 (downloadImage_collects_chunks MoreSamples.hind_only
                  "https://bsky.app/static/apple-touch-icon.png"
                  [[x89; x50]; [x4e; x47]] []) H).
Defined.

(** ** index.js: main and postToBluesky, further *)

Ltac lower_is c :=
  each_ascii c; vm_compute; intros H;
  first [discriminate H | left; reflexivity | right; reflexivity].

Lemma lower_is_t c : lower_ascii c = "t"%char -> c = "t"%char \/ c = "T"%char.
Proof. lower_is c. Qed.
Lemma lower_is_r c : lower_ascii c = "r"%char -> c = "r"%char \/ c = "R"%char.
Proof. lower_is c. Qed.
Lemma lower_is_u c : lower_ascii c = "u"%char -> c = "u"%char \/ c = "U"%char.
Proof. lower_is c. Qed.
Lemma lower_is_e c : lower_ascii c = "e"%char -> c = "e"%char \/ c = "E"%char.
Proof. lower_is c. Qed.

(** X17: posting is switched on exactly by the sixteen upper and lower
    case spellings of [true] in [POST_TO_BLUESKY]; an unset variable and
    every other value (["1"], ["yes"], [" true"]) leave it off. *)
Theorem shouldPost_spellings w :
  shouldPost w = true <->
  exists s, env w !! "POST_TO_BLUESKY" = Some s /\ In s Order.spellings_of_true.
Proof.
  unfold shouldPost. destruct (env w !! "POST_TO_BLUESKY") as [s|].
  - split.
    + intros H. apply String.eqb_eq in H. exists s. split; [done |].
      destruct s as [|c1 [|c2 [|c3 [|c4 [|c5 s]]]]]; try discriminate H.
      cbn [toLowerCase] in H. injection H as H1 H2 H3 H4.
      destruct (lower_is_t _ H1) as [-> | ->], (lower_is_r _ H2) as [-> | ->],
               (lower_is_u _ H3) as [-> | ->], (lower_is_e _ H4) as [-> | ->];
        unfold Order.spellings_of_true; simpl; tauto.
    + intros (s' & [= <-] & Hin). unfold Order.spellings_of_true in Hin.
      simpl in Hin.
      repeat (destruct Hin as [<- | Hin]; [reflexivity |]). destruct Hin.
  - split; [discriminate | intros (s & [=] & _)].
Qed.

Lemma readFile_is_imagePath w imagePath dateText info t r p :
  postToBluesky w imagePath dateText info = (t, r) ->
  In (ReadFile p) t -> p = imagePath.
Proof.
  intros Hpost Hin. apply postToBluesky_run_eq in Hpost.
  destruct Hpost; simpl in Hin;
    repeat (destruct Hin as [Hin | Hin]; [try discriminate Hin |]);
    try contradiction; by injection Hin as <-.
Qed.

(** X18: when posting is off, [main] makes no call to the agent and does
    not read the image back: no login, upload, facet detection or post
    creation appears in its trace. *)
Theorem main_without_posting w :
  shouldPost w = false ->
  forall e, In e (fst (main w)) -> Order.is_posting e = false.
Proof.
  intros Hoff.
  unfold main, createBanglaDateImage, try_catch, bind, call, console, ret.
  cbv zeta.
  destruct (existsSync w (outputDir w));
    [| destruct (mkdirSync w (outputDir w)) as [[]|?]];
    try destruct (render w (outputPath w) (getBanglaDateInfo w)) as [[]|?];
    simpl; rewrite ?Hoff; simpl; intros ev Hin;
    repeat (destruct Hin as [<- | Hin]; [reflexivity |]); destruct Hin.
Qed.

Lemma main_without_posting_witness :
  shouldPost (Samples.calm ∅ Samples.png) = false /\
  Order.is_posting (Render (outputPath (Samples.calm ∅ Samples.png))) = false.
Proof.
  assert (shouldPost (Samples.calm ∅ Samples.png) = false) as H by reflexivity.
  split; [exact H |].
  apply (main_without_posting (Samples.calm ∅ Samples.png) H).
  do 3 right. left. reflexivity.
Defined.

(** X19: [main] never calls the agent or reads the image file before the
    image has been rendered, and the only file it reads for the upload is
    the one it has just had rendered, after that rendering returned. *)
Theorem main_renders_before_posting w :
  Order.guarded Order.is_render Order.is_posting (fst (main w)) = true /\
  forall p, In (ReadFile p) (fst (main w)) ->
            p = outputPath w /\
            render w (outputPath w) (getBanglaDateInfo w) = Returned tt.
Proof.
  destruct (postToBluesky_returns w (outputPath w)
              (captionDateText (getBanglaDateInfo w)) (getBanglaDateInfo w))
    as (t & b & Hpost & _).
  unfold main, createBanglaDateImage, try_catch, bind, call, console, ret.
  cbv zeta.
  destruct (existsSync w (outputDir w));
    [| destruct (mkdirSync w (outputDir w)) as [[]|?]];
    try (destruct (render w (outputPath w) (getBanglaDateInfo w)) as [[]|?];
         [destruct (shouldPost w); simpl; [rewrite Hpost; simpl |] |]);
    simpl; (split; [reflexivity |]); intros p Hin;
    repeat (destruct Hin as [Hin | Hin]; [discriminate Hin |]);
    try contradiction.
  all: split; [| reflexivity].
  all: rewrite app_nil_r in Hin; apply in_app_or in Hin as [Hin | Hin];
    [by eapply readFile_is_imagePath
    | by repeat (destruct Hin as [Hin | Hin]; [discriminate Hin |])].
Qed.

(** X20: in a run of [main] in which every awaited call has settled, the
    process status is 0 or 1; it is 1 exactly when creating the output
    directory throws or, the directory being there, producing the image
    throws; and in a run that ends with status 1 nothing was posted: no
    call to the agent was made and the image file was not read back. *)
Theorem main_exit_status_characterised w :
  (exit_status (fst (main w)) = 0%Z \/ exit_status (fst (main w)) = 1%Z) /\
  (exit_status (fst (main w)) = 1%Z <->
   (existsSync w (outputDir w) = false /\
    exists e, mkdirSync w (outputDir w) = Thrown e) \/
   ((existsSync w (outputDir w) = true \/ mkdirSync w (outputDir w) = Returned tt) /\
    exists e, render w (outputPath w) (getBanglaDateInfo w) = Thrown e)) /\
  (exit_status (fst (main w)) = 1%Z ->
   forall e, In e (fst (main w)) -> Order.is_posting e = false).
Proof.
  destruct (postToBluesky_returns w (outputPath w)
              (captionDateText (getBanglaDateInfo w)) (getBanglaDateInfo w))
    as (t & b & Hpost & Hquiet).
  assert (exit_status (t ++ [Console Log (nl +:+ "‚ú® Done!")]) = 0%Z) as Hdone.
  { apply exit_status_no_exit. rewrite count_app, Hquiet. reflexivity. }
  unfold main, createBanglaDateImage, try_catch, bind, call, console, ret.
  cbv zeta.
  destruct (existsSync w (outputDir w)) eqn:Hex;
    [| destruct (mkdirSync w (outputDir w)) as [[]|?] eqn:Hmk];
    try (destruct (render w (outputPath w) (getBanglaDateInfo w)) as [[]|?] eqn:Hr;
         [destruct (shouldPost w); simpl; [rewrite Hpost; simpl |] |]);
    simpl; rewrite ?app_nil_r, ?Hdone;
    (split; [auto |]).
  all: split;
    [ split;
      [ intros H; try discriminate H; eauto 8
      | intros [[H1 [e' H2]] | [H1 [e' H2]]];
        try discriminate; try reflexivity; try destruct H1; try discriminate ]
    | intros H; try discriminate H; intros e' Hin;
      repeat (destruct Hin as [<- | Hin]; [reflexivity |]); destruct Hin ].
Qed.

(** X21: [postToBluesky] returns [true] exactly when the credentials are
    there and all five steps returned: the login, the read of the image
    file, the upload, the facet detection and the creation of the post;
    and then the last thing it does is to log the URI that the agent
    returned for the post. *)
Theorem postToBluesky_true_iff_confirmed w imagePath dateText info :
  snd (postToBluesky w imagePath dateText info) = Returned true <->
  truthy (handle w) = true /\ truthy (password w) = true /\
  login w (to_string (handle w)) (to_string (password w)) = Returned tt /\
  exists data blob fs uri,
    readFileSync w imagePath = Returned data /\
    uploadBlob w data "image/png" = Returned blob /\
    detectFacets w (postText dateText info) = Returned fs /\
    post w (postRecord w dateText (postText dateText info) fs blob) = Returned uri /\
    List.last (fst (postToBluesky w imagePath dateText info)) (Exit 0)
    = Console Log ("‚úÖ Posted to Bluesky: " +:+ uri).
Proof.
  pose proof (postToBluesky_run w imagePath dateText info) as Hrun.
  destruct (postToBluesky w imagePath dateText info) as [t r]. cbn [fst snd] in *.
  split.
  - intros ->. inversion Hrun as [| | | | | |data blob fs uri Hg Hl Hr Hu Hd Hp]; subst.
    apply orb_false_iff in Hg as [Hh Hpw]. apply negb_false_iff in Hh, Hpw.
    repeat split; try done. by exists data, blob, fs, uri.
  - intros (Hh & Hpw & Hlogin & data & blob & fs & uri & Hread & Hup & Hdet & Hpost & _).
    destruct Hrun as [Hg| | | | | |]; [by rewrite Hh, Hpw in Hg | ..];
      same_answers; done.
Qed.

Lemma env_get_set w name s :
  env w !! name = Some s -> env_get w name = VString s.
Proof. unfold env_get. by intros ->. Qed.

Lemma env_get_unset w name : unset w name -> truthy (env_get w name) = false.
Proof. unfold unset, env_get. by intros [-> | ->]. Qed.

(** X22: the identifier that [postToBluesky] logs in with is the value of
    [BLUESKY_HANDLE] when that is set and not empty, whatever
    [BSKY_USERNAME] holds, and the value of [BSKY_USERNAME] when
    [BLUESKY_HANDLE] is unset or empty; the password is taken in the same
    way from [BLUESKY_PASSWORD] and [BSKY_APP_PASSWORD]. *)
Theorem login_uses_first_set_variable w imagePath dateText info identifier pass :
  In (Login identifier pass) (fst (postToBluesky w imagePath dateText info)) ->
  (forall s, env w !! "BLUESKY_HANDLE" = Some s -> s <> "" -> identifier = s) /\
  (forall s, unset w "BLUESKY_HANDLE" ->
             env w !! "BSKY_USERNAME" = Some s -> identifier = s) /\
  (forall s, env w !! "BLUESKY_PASSWORD" = Some s -> s <> "" -> pass = s) /\
  (forall s, unset w "BLUESKY_PASSWORD" ->
             env w !! "BSKY_APP_PASSWORD" = Some s -> pass = s).
Proof.
  intros Hin.
  assert (identifier = to_string (handle w) /\ pass = to_string (password w))
    as [-> ->].
  { pose proof (postToBluesky_run w imagePath dateText info) as Hrun.
    destruct Hrun; simpl in Hin;
      repeat (destruct Hin as [Hin | Hin]; [try discriminate Hin |]);
      try contradiction; by injection Hin as <- <-. }
  unfold handle, password, or_else.
  repeat split; intros s.
  - intros Hs Hne. rewrite (env_get_set _ _ _ Hs). cbn [truthy].
    by destruct (String.eqb_spec s "").
  - intros Hun Hs. by rewrite (env_get_unset _ _ Hun), (env_get_set _ _ _ Hs).
  - intros Hs Hne. rewrite (env_get_set _ _ _ Hs). cbn [truthy].
    by destruct (String.eqb_spec s "").
  - intros Hun Hs. by rewrite (env_get_unset _ _ Hun), (env_get_set _ _ _ Hs).
Qed.

Lemma login_uses_first_set_variable_witness :
  In (Login "sayed.app" "app-password")
     (fst (postToBluesky Samples.happy Samples.path Samples.dateText Samples.info)) /\
  "sayed.app" = "sayed.app".
Proof.
  assert (In (Login "sayed.app" "app-password")
             (fst (postToBluesky Samples.happy Samples.path
                     Samples.dateText Samples.info))) as H
    by (right; left; reflexivity).
  split; [exact H |].
  refine (proj1 (login_uses_first_set_variable _ _ _ _ _ _ H) "sayed.app" _ _).
  - reflexivity.
  - discriminate.
Defined.
